(** * CharConverters: UTF-8 <-> wide string transcoding

    A shallow embedding of [src/charconverters.hpp] and
    [src/charconverters.cpp] (namespace [CharConverters]), and the
    properties of the two conversion functions [WideStrToUTF8] and
    [UTF8ToWideStr].

    Code units and bytes are integers ([Z]); every C++ conversion to a
    narrower type is written out as the wrap-around it performs. *)

From Stdlib Require Import ZArith List Bool Lia.
Import ListNotations.
Local Open Scope Z_scope.

(** ** Outcomes of a call

    Both functions either return a string or throw
    [std::invalid_argument].  The three messages of the source are:
    - "Invalid UTF-16 sequence: unexpected low surrogate"
      ([UnpairedLowSurrogate], charconverters.cpp:70),
    - "Invalid UTF-16 sequence: low surrogate is out of range"
      ([SurrogateOutOfRange], charconverters.cpp:75),
    - "Invalid character" ([InvalidLeadByte], charconverters.cpp:180).

    [std::u8string_view::operator[]] is not bounds-checked: indexing at a
    position [pos >= size()] is undefined behaviour.  The model stops at
    such an access and reports it as [OutOfBounds pos].

    [OutOfFuel] belongs to the model only: the decoder's [for] loop has no
    structural argument and is unrolled with a fuel counter; lemma
    [UTF8ToWideStr_terminates] shows it is never returned. *)

Inductive error : Type :=
| UnpairedLowSurrogate
| SurrogateOutOfRange
| InvalidLeadByte.

Inductive outcome (A : Type) : Type :=
| Ok (a : A)
| Throw (e : error)
| OutOfBounds (pos : nat)
| OutOfFuel.

Arguments Ok {A} a.
Arguments Throw {A} e.
Arguments OutOfBounds {A} pos.
Arguments OutOfFuel {A}.

Definition bind {A B : Type} (c : outcome A) (k : A -> outcome B) : outcome B :=
  match c with
  | Ok a => k a
  | Throw e => Throw e
  | OutOfBounds pos => OutOfBounds pos
  | OutOfFuel => OutOfFuel
  end.

Notation "x <- c ;; k" := (bind c (fun x => k))
  (at level 61, c at next level, right associativity).

Definition is_ok {A : Type} (c : outcome A) : bool :=
  match c with Ok _ => true | _ => false end.

(** ** Build configuration

    The decoder selects its 4-byte branch with [#ifdef _WIN32]
    (charconverters.cpp:154), a macro the compiler predefines on Windows
    targets.  The encoder selects its surrogate branches with
    [#ifdef WideCharIsUTF16] (charconverters.cpp:48); charconverters.hpp:5
    defines that macro unconditionally, so it is set in every build.
    [WideCharIsUTF32] (charconverters.cpp:94) is defined nowhere, and its
    branch, an [else if] after the final [else], could not be compiled. *)

Record Build : Type := { has_WIN32 : bool }.

Definition windows : Build := {| has_WIN32 := true |}.
Definition posix : Build := {| has_WIN32 := false |}.

Definition WideCharIsUTF16 (b : Build) : bool := true.

(** ** Integer conversions *)

(** [static_cast<char8_t>(x)]: reduction modulo 2^8. *)
Definition char8 (x : Z) : Z := x mod 0x100.

(** Arithmetic in [uint32_t]: reduction modulo 2^32. *)
Definition uint32 (x : Z) : Z := x mod 0x100000000.

(** [static_cast<wchar_t>(x)]: [wchar_t] is an unsigned 16-bit type on
    Windows and a signed 32-bit type elsewhere. *)
Definition wchar_cast (b : Build) (x : Z) : Z :=
  if has_WIN32 b then x mod 0x10000
  else (x + 0x80000000) mod 0x100000000 - 0x80000000.

Definition byte_range (x : Z) : Prop := 0 <= x < 0x100.

(** ** Encoder: [WideStrToUTF8] (charconverters.cpp:10-105) *)

(** One iteration of the [for] loop (lines 16-102): [codePoint] is the
    [uint32_t] local declared before the loop, [out] the output built so
    far, [wchar] the unit [in[i]]. *)
Definition encode_unit (utf16 : bool) (codePoint : Z) (out : list Z) (wchar : Z)
  : outcome (Z * list Z) :=
  if wchar <=? 0x7F then
    Ok (codePoint, out ++ [char8 wchar])
  else if wchar <=? 0x07FF then
    Ok (codePoint,
        out ++ [char8 (Z.lor (Z.shiftr wchar 6) 0xC0);
                char8 (Z.lor (Z.land wchar 0x3F) 0x80)])
  else if utf16 && (0xD800 <=? wchar) && (wchar <=? 0xDBFF) then
    Ok (uint32 ((wchar - 0xD800) * 0x400), out)
  else if utf16 && (0xDC00 <=? wchar) && (wchar <=? 0xDFFF) then
    if (0xD800 <=? codePoint) && (codePoint <=? 0xDFFF) then
      Throw UnpairedLowSurrogate
    else
      let codePoint := uint32 (codePoint + (wchar - 0xDC00)) in
      let codePoint := uint32 (codePoint + 0x10000) in
      if 0x10FFFF <? codePoint then
        Throw SurrogateOutOfRange
      else
        Ok (codePoint,
            out ++ [char8 (Z.lor (Z.shiftr codePoint 18) 0xF0);
                    char8 (Z.lor (Z.land (Z.shiftr codePoint 12) 0x3F) 0x80);
                    char8 (Z.lor (Z.land (Z.shiftr codePoint 6) 0x3F) 0x80);
                    char8 (Z.lor (Z.land codePoint 0x3F) 0x80)])
  else
    Ok (codePoint,
        out ++ [char8 (Z.lor (Z.shiftr wchar 12) 0xE0);
                char8 (Z.lor (Z.land (Z.shiftr wchar 6) 0x3F) 0x80);
                char8 (Z.lor (Z.land wchar 0x3F) 0x80)]).

(** The loop over the input, from the unit at the head of [units] on; it
    returns the final value of [codePoint] together with [out]. *)
Fixpoint encode_loop (utf16 : bool) (units : list Z) (codePoint : Z) (out : list Z)
  : outcome (Z * list Z) :=
  match units with
  | [] => Ok (codePoint, out)
  | wchar :: rest =>
      st <- encode_unit utf16 codePoint out wchar ;;
      encode_loop utf16 rest (fst st) (snd st)
  end.

Definition WideStrToUTF8 (b : Build) (inp : list Z) : outcome (list Z) :=
  st <- encode_loop (WideCharIsUTF16 b) inp 0 [] ;;
  Ok (snd st).

(** ** Decoder: [UTF8ToWideStr] (charconverters.cpp:107-185) *)

(** [in[k]]. *)
Definition at_index (inp : list Z) (k : nat) : outcome Z :=
  match nth_error inp k with
  | Some x => Ok x
  | None => OutOfBounds k
  end.

(** One iteration of the [for] loop (lines 116-182) at cursor [i]; it
    returns the new cursor and the extended output.  Where one C++
    expression indexes several positions, the model reads them in
    increasing order (C++ leaves the order unspecified), so the position
    reported by [OutOfBounds] is the lowest one past the end. *)
Definition decode_run (b : Build) (inp : list Z) (i : nat) (out : list Z)
  : outcome (nat * list Z) :=
  b0 <- at_index inp i ;;
  if Z.land b0 0x80 =? 0 then
    Ok ((i + 1)%nat, out ++ [wchar_cast b b0])
  else if Z.land b0 0xE0 =? 0xC0 then
    b1 <- at_index inp (i + 1) ;;
    Ok ((i + 2)%nat,
        out ++ [wchar_cast b (Z.lor (Z.shiftl (Z.land b0 0x1F) 6) (Z.land b1 0x3F))])
  else if Z.land b0 0xF0 =? 0xE0 then
    b1 <- at_index inp (i + 1) ;;
    b2 <- at_index inp (i + 2) ;;
    Ok ((i + 3)%nat,
        out ++ [wchar_cast b
                  (Z.lor (Z.lor (Z.shiftl (Z.land b0 0x0F) 12)
                                (Z.shiftl (Z.land b1 0x3F) 6))
                         (Z.land b2 0x3F))])
  else if Z.land b0 0xF8 =? 0xF0 then
    b1 <- at_index inp (i + 1) ;;
    b2 <- at_index inp (i + 2) ;;
    b3 <- at_index inp (i + 3) ;;
    let bits :=
      Z.lor (Z.lor (Z.lor (Z.shiftl (Z.land b0 0x07) 24)
                          (Z.shiftl (Z.land b1 0x3F) 12))
                   (Z.shiftl (Z.land b2 0x3F) 6))
            (Z.land b3 0x3F) in
    if has_WIN32 b then
      let u32 := uint32 bits in
      Ok ((i + 4)%nat,
          out ++ [wchar_cast b (uint32 (Z.shiftr (uint32 (u32 - 0x10000)) 10 + 0xD800));
                  wchar_cast b (uint32 (u32 mod 0x400 + 0xDC00))])
    else
      Ok ((i + 4)%nat, out ++ [wchar_cast b bits])
  else
    Throw InvalidLeadByte.

(** The loop [for (size_t i = 0; i < in.size(); )]. *)
Fixpoint decode_loop (b : Build) (fuel : nat) (inp : list Z) (i : nat) (out : list Z)
  : outcome (list Z) :=
  if (i <? length inp)%nat then
    match fuel with
    | O => OutOfFuel
    | S fuel' =>
        st <- decode_run b inp i out ;;
        decode_loop b fuel' inp (fst st) (snd st)
    end
  else Ok out.

(** Every iteration advances the cursor, so [in.size()] iterations are
    enough. *)
Definition UTF8ToWideStr (b : Build) (inp : list Z) : outcome (list Z) :=
  decode_loop b (length inp) inp 0%nat [].

(** ** The wide encoding of a code point

    Follows the spec's data model (section 3) and its surrogate formulas
    (section 4.2): one unit up to U+FFFF, otherwise a high surrogate
    followed by a low surrogate. *)
Definition spec_surrogate_pair (cp : Z) : list Z :=
  [Z.shiftr (cp - 0x10000) 10 + 0xD800; (cp - 0x10000) mod 0x400 + 0xDC00].

Definition wideEncodingOf (cp : Z) : list Z :=
  if cp <? 0x10000 then [cp] else spec_surrogate_pair cp.

(** The 21-bit code point of a 4-byte run as the spec states it
    (section 4.2, item 4). *)
Definition spec_cp4 (b1 b2 b3 b4 : Z) : Z :=
  Z.lor (Z.lor (Z.lor (Z.shiftl (Z.land b1 0x07) 18)
                      (Z.shiftl (Z.land b2 0x3F) 12))
               (Z.shiftl (Z.land b3 0x3F) 6))
        (Z.land b4 0x3F).

(** Encoding the wide form of a code point and decoding the bytes again. *)
Definition roundtrip (b : Build) (cp : Z) : outcome (list Z) :=
  bytes <- WideStrToUTF8 b (wideEncodingOf cp) ;; UTF8ToWideStr b bytes.

Definition is_surrogate (cp : Z) : bool := (0xD800 <=? cp) && (cp <=? 0xDFFF).

(** ** The UTF-8 form of a code point

    The table in the encoder's comment (charconverters.cpp:17-27), with
    the payload bits of each byte written by division and remainder. *)
Definition utf8_of (cp : Z) : list Z :=
  if cp <? 0x80 then [cp]
  else if cp <? 0x800 then [0xC0 + cp / 0x40; 0x80 + cp mod 0x40]
  else if cp <? 0x10000 then
    [0xE0 + cp / 0x1000; 0x80 + (cp / 0x40) mod 0x40; 0x80 + cp mod 0x40]
  else
    [0xF0 + cp / 0x40000; 0x80 + (cp / 0x1000) mod 0x40;
     0x80 + (cp / 0x40) mod 0x40; 0x80 + cp mod 0x40].

(** A Unicode scalar value: at most U+10FFFF and no surrogate. *)
Definition is_scalar (cp : Z) : bool :=
  (0 <=? cp) && (cp <=? 0x10FFFF) && negb (is_surrogate cp).

(** The code points whose high surrogate is D836 or D837. *)
Definition in_U1D800_block (cp : Z) : bool := (0x1D800 <=? cp) && (cp <=? 0x1DFFF).

Definition is_high_surrogate (u : Z) : bool := (0xD800 <=? u) && (u <=? 0xDBFF).
Definition is_low_surrogate (u : Z) : bool := (0xDC00 <=? u) && (u <=? 0xDFFF).

(** The scalar values the encoder accepts in wide form. *)
Definition encodable (cp : Z) : bool := is_scalar cp && negb (in_U1D800_block cp).

(** Every low surrogate of the sequence directly follows a high surrogate;
    [prev_high] tells whether the unit before the sequence is one. *)
Fixpoint lows_paired (prev_high : bool) (units : list Z) : bool :=
  match units with
  | [] => true
  | u :: rest =>
      (negb (is_low_surrogate u) || prev_high) && lows_paired (is_high_surrogate u) rest
  end.

(** Positions of out-of-bounds reads, moved by [n]: an input that follows
    [n] other bytes is indexed [n] places further on. *)
Definition shift_pos {A : Type} (n : nat) (c : outcome A) : outcome A :=
  match c with
  | OutOfBounds k => OutOfBounds (n + k)
  | _ => c
  end.

(** The units the decoder is to return for a code point: its wide form
    under [_WIN32], the code point itself otherwise. *)
Definition decoded_units (b : Build) (cp : Z) : list Z :=
  if has_WIN32 b then wideEncodingOf cp else [cp].

(** The value the decoder puts together from the four bytes of [cp]: the
    bits above bit 17 are moved up by six places (shift by 24). *)
Definition assembled_4 (cp : Z) : Z := cp / 0x40000 * 0x1000000 + cp mod 0x40000.

(** ** Lead-byte classes

    The four classes as bit patterns, most significant bit first:
    0xxxxxxx, 110xxxxx, 1110xxxx and 11110xxx. *)

Definition is_0xxxxxxx (x : Z) : bool := negb (Z.testbit x 7).
Definition is_110xxxxx (x : Z) : bool :=
  Z.testbit x 7 && Z.testbit x 6 && negb (Z.testbit x 5).
Definition is_1110xxxx (x : Z) : bool :=
  Z.testbit x 7 && Z.testbit x 6 && Z.testbit x 5 && negb (Z.testbit x 4).
Definition is_11110xxx (x : Z) : bool :=
  Z.testbit x 7 && Z.testbit x 6 && Z.testbit x 5 && Z.testbit x 4
  && negb (Z.testbit x 3).

Definition defined_lead_class (x : Z) : bool :=
  is_0xxxxxxx x || is_110xxxxx x || is_1110xxxx x || is_11110xxx x.

(** The number of bytes of the run a lead byte announces; 0 for a byte
    of no class. *)
Definition run_length (x : Z) : nat :=
  if is_0xxxxxxx x then 1
  else if is_110xxxxx x then 2
  else if is_1110xxxx x then 3
  else if is_11110xxx x then 4
  else 0.


(** ** Enumerating a range of integers, for checks by computation *)

Fixpoint Zfrom (start : Z) (n : nat) : list Z :=
  match n with
  | O => []
  | S k => start :: Zfrom (start + 1) k
  end.

Definition Zupto (n : nat) : list Z := Zfrom 0 n.

(** * Properties *)

(** ** Checking a predicate on every value below a bound *)

Lemma Zfrom_In (n : nat) : forall start x,
  start <= x < start + Z.of_nat n -> In x (Zfrom start n).
Proof.
  induction n as [|n IH]; intros start x Hx; [lia|].
  cbn [Zfrom]. destruct (Z.eq_dec start x) as [->|Hne]; [left; reflexivity|].
  right. apply IH. lia.
Qed.

Lemma Zupto_In (n : nat) (x : Z) : 0 <= x < Z.of_nat n -> In x (Zupto n).
Proof. intros Hx. apply Zfrom_In. lia. Qed.

Lemma forall_below (n : nat) (p : Z -> bool) :
  forallb p (Zupto n) = true ->
  forall x, 0 <= x < Z.of_nat n -> p x = true.
Proof.
  intros Hall x Hx. rewrite forallb_forall in Hall.
  apply Hall, Zupto_In, Hx.
Qed.

(** ** Integer conversions on small values *)

Lemma char8_small (x : Z) : 0 <= x < 0x100 -> char8 x = x.
Proof. intros Hx. unfold char8. apply Z.mod_small. exact Hx. Qed.

Lemma wchar_cast_small (b : Build) (x : Z) : 0 <= x < 0x10000 -> wchar_cast b x = x.
Proof.
  intros Hx. unfold wchar_cast. destruct (has_WIN32 b).
  - apply Z.mod_small. exact Hx.
  - rewrite Z.mod_small; lia.
Qed.

Lemma ascii_top_bit_clear (v : Z) : 0 <= v <= 0x7F -> (Z.land v 0x80 =? 0) = true.
Proof.
  intros Hv.
  apply (forall_below 128 (fun x => Z.land x 0x80 =? 0)); [vm_compute; reflexivity | lia].
Qed.

Lemma lead_masks_agree (x : Z) :
  byte_range x ->
  (Z.land x 0x80 =? 0) = is_0xxxxxxx x /\
  (Z.land x 0xE0 =? 0xC0) = is_110xxxxx x /\
  (Z.land x 0xF0 =? 0xE0) = is_1110xxxx x /\
  (Z.land x 0xF8 =? 0xF0) = is_11110xxx x.
Proof.
  intros Hx.
  assert (H : (Bool.eqb (Z.land x 0x80 =? 0) (is_0xxxxxxx x)
               && Bool.eqb (Z.land x 0xE0 =? 0xC0) (is_110xxxxx x)
               && Bool.eqb (Z.land x 0xF0 =? 0xE0) (is_1110xxxx x)
               && Bool.eqb (Z.land x 0xF8 =? 0xF0) (is_11110xxx x)) = true).
  { apply (forall_below 256
             (fun x => Bool.eqb (Z.land x 0x80 =? 0) (is_0xxxxxxx x)
                       && Bool.eqb (Z.land x 0xE0 =? 0xC0) (is_110xxxxx x)
                       && Bool.eqb (Z.land x 0xF0 =? 0xE0) (is_1110xxxx x)
                       && Bool.eqb (Z.land x 0xF8 =? 0xF0) (is_11110xxx x)));
      [vm_compute; reflexivity | exact Hx]. }
  repeat (apply andb_prop in H; destruct H as [H ?]).
  repeat split; apply Bool.eqb_prop; assumption.
Qed.

Lemma undefined_lead_masks (x : Z) :
  byte_range x -> defined_lead_class x = false ->
  (Z.land x 0x80 =? 0) = false /\ (Z.land x 0xE0 =? 0xC0) = false /\
  (Z.land x 0xF0 =? 0xE0) = false /\ (Z.land x 0xF8 =? 0xF0) = false.
Proof.
  intros Hx Hc. destruct (lead_masks_agree x Hx) as (-> & -> & -> & ->).
  unfold defined_lead_class in Hc.
  repeat (apply orb_false_elim in Hc; destruct Hc as [Hc ?]).
  repeat split; assumption.
Qed.

(** ** The decoder's loop *)

Lemma at_index_lt (inp : list Z) (k : nat) (x : Z) :
  at_index inp k = Ok x -> (k < length inp)%nat.
Proof.
  unfold at_index. destruct (nth_error inp k) eqn:E; [|discriminate].
  intros _. apply nth_error_Some. congruence.
Qed.

Lemma at_index_app (pre s : list Z) (k : nat) (x : Z) :
  at_index pre k = Ok x -> at_index (pre ++ s) k = Ok x.
Proof.
  intros H. pose proof (at_index_lt _ _ _ H) as Hlt.
  unfold at_index in *. rewrite nth_error_app1 by exact Hlt. exact H.
Qed.

Lemma at_index_not_out_of_fuel (inp : list Z) (k : nat) : at_index inp k <> OutOfFuel.
Proof. unfold at_index. destruct (nth_error inp k); discriminate. Qed.

Ltac run_cases :=
  repeat match goal with
    | |- context [bind (at_index ?l ?k) _] =>
        let E := fresh "E" in destruct (at_index l k) eqn:E; cbn [bind]
    | |- context [if ?c then _ else _] =>
        let C := fresh "C" in destruct c eqn:C
    end.

Lemma decode_run_bound (b : Build) (inp : list Z) (i : nat) (out : list Z) st :
  decode_run b inp i out = Ok st -> (i < fst st <= length inp)%nat.
Proof.
  unfold decode_run. run_cases; intros H; try discriminate;
    apply (f_equal (fun o => match o with Ok s => fst s | _ => i end)) in H;
    cbv beta iota delta [fst] in H; change (fst st) with (let (x, _) := st in x);
    rewrite <- H;
    repeat match goal with
      | E : at_index _ _ = Ok _ |- _ => apply at_index_lt in E
      end; lia.
Qed.

Lemma decode_run_not_out_of_fuel (b : Build) (inp : list Z) (i : nat) (out : list Z) :
  decode_run b inp i out <> OutOfFuel.
Proof.
  unfold decode_run. run_cases; try discriminate;
    exfalso; eapply at_index_not_out_of_fuel; eassumption.
Qed.

Lemma decode_run_app (b : Build) (pre s : list Z) (i : nat) (out : list Z) st :
  decode_run b pre i out = Ok st -> decode_run b (pre ++ s) i out = Ok st.
Proof.
  unfold decode_run.
  repeat match goal with
    | |- context [bind (at_index pre ?k) _] =>
        let E := fresh "E" in
        destruct (at_index pre k) eqn:E; cbn [bind]; try discriminate;
        rewrite (at_index_app pre s _ _ E); cbn [bind]
    | |- context [if ?c then _ else _] =>
        let C := fresh "C" in destruct c eqn:C
    end; auto.
Qed.

(** Any amount of fuel that covers the bytes left gives the same result. *)
Lemma decode_loop_fuel (b : Build) (inp : list Z) :
  forall f1 f2 i out,
    (length inp - i <= f1)%nat -> (length inp - i <= f2)%nat ->
    decode_loop b f1 inp i out = decode_loop b f2 inp i out.
Proof.
  induction f1 as [|f1 IH]; intros f2 i out H1 H2.
  - destruct f2; cbn [decode_loop];
      destruct (i <? length inp)%nat eqn:C; try reflexivity;
      apply Nat.ltb_lt in C; lia.
  - destruct f2; cbn [decode_loop];
      destruct (i <? length inp)%nat eqn:C; try reflexivity;
      apply Nat.ltb_lt in C; [lia|].
    destruct (decode_run b inp i out) as [st| | |] eqn:R; cbn [bind]; try reflexivity.
    apply decode_run_bound in R. apply IH; lia.
Qed.

Lemma decode_loop_terminates (b : Build) (inp : list Z) :
  forall fuel i out,
    (length inp - i <= fuel)%nat -> decode_loop b fuel inp i out <> OutOfFuel.
Proof.
  induction fuel as [|fuel IH]; intros i out Hf; cbn [decode_loop];
    destruct (i <? length inp)%nat eqn:C; try discriminate;
    apply Nat.ltb_lt in C; [lia|].
  destruct (decode_run b inp i out) as [st| | |] eqn:R; cbn [bind]; try discriminate.
  - apply decode_run_bound in R. apply IH. lia.
  - exfalso. eapply decode_run_not_out_of_fuel. exact R.
Qed.

(** The decoder returns or throws on every input: the fuel of the model
    never runs out. *)
Lemma UTF8ToWideStr_terminates (b : Build) (inp : list Z) :
  UTF8ToWideStr b inp <> OutOfFuel.
Proof. unfold UTF8ToWideStr. apply decode_loop_terminates. lia. Qed.

(** Decoding [pre ++ s] first does what decoding [pre] does, when that
    succeeds, and goes on at the first byte of [s]. *)
Lemma decode_loop_app (b : Build) (pre s : list Z) :
  forall fuel i out w,
    decode_loop b fuel pre i out = Ok w -> (i <= length pre)%nat ->
    forall fuel', (length (pre ++ s) - i <= fuel')%nat ->
    decode_loop b fuel' (pre ++ s) i out =
    decode_loop b (length s) (pre ++ s) (length pre) w.
Proof.
  assert (Hdone : forall i out fuel',
             (i <= length pre)%nat -> (i <? length pre)%nat = false ->
             (length (pre ++ s) - i <= fuel')%nat ->
             decode_loop b fuel' (pre ++ s) i out =
             decode_loop b (length s) (pre ++ s) (length pre) out).
  { intros i out fuel' Hi C Hf.
    assert (i = length pre) as -> by (apply Nat.ltb_ge in C; lia).
    apply decode_loop_fuel; rewrite length_app in *; lia. }
  induction fuel as [|fuel IH]; intros i out w H Hi fuel' Hf; cbn [decode_loop] in H.
  - destruct (i <? length pre)%nat eqn:C; [discriminate|].
    injection H as <-. apply Hdone; assumption.
  - destruct (i <? length pre)%nat eqn:C.
    + destruct (decode_run b pre i out) as [st| | |] eqn:R; cbn [bind] in H;
        try discriminate.
      pose proof (decode_run_bound _ _ _ _ _ R) as Hb.
      apply (decode_run_app b pre s) in R.
      apply Nat.ltb_lt in C. rewrite length_app in Hf.
      destruct fuel' as [|fuel']; [lia|]. cbn [decode_loop].
      replace (i <? length (pre ++ s))%nat with true
        by (symmetry; apply Nat.ltb_lt; rewrite length_app; lia).
      rewrite R. cbn [bind]. apply (IH _ _ _ H); [lia | rewrite length_app; lia].
    + injection H as <-. apply Hdone; assumption.
Qed.

(** ** Runs of ASCII values *)

Lemma encode_loop_ascii (utf16 : bool) (l : list Z) :
  Forall (fun v => 0 <= v <= 0x7F) l ->
  forall codePoint out,
    encode_loop utf16 l codePoint out = Ok (codePoint, out ++ l).
Proof.
  induction 1 as [|v l Hv _ IH]; intros codePoint out; cbn [encode_loop].
  - rewrite app_nil_r. reflexivity.
  - unfold encode_unit.
    replace (v <=? 0x7F) with true by (symmetry; apply Z.leb_le; lia).
    cbn [bind fst snd]. rewrite IH, char8_small by lia.
    rewrite <- app_assoc. reflexivity.
Qed.

Lemma skipn_nth_error (l : list Z) : forall i x,
  nth_error l i = Some x -> skipn i l = x :: skipn (S i) l.
Proof.
  induction l as [|y l IH]; intros [|i] x H; cbn in H; try discriminate.
  - injection H as ->. reflexivity.
  - cbn [skipn]. rewrite (IH _ _ H). reflexivity.
Qed.

Lemma decode_loop_ascii (b : Build) (l : list Z) :
  Forall (fun v => 0 <= v <= 0x7F) l ->
  forall fuel i out,
    (length l - i <= fuel)%nat ->
    decode_loop b fuel l i out = Ok (out ++ skipn i l).
Proof.
  intros Hl. induction fuel as [|fuel IH]; intros i out Hf; cbn [decode_loop];
    destruct (i <? length l)%nat eqn:C;
    try (apply Nat.ltb_ge in C; rewrite skipn_all2, app_nil_r by exact C; reflexivity);
    apply Nat.ltb_lt in C; [lia|].
  destruct (nth_error l i) as [x|] eqn:E; [|apply nth_error_None in E; lia].
  assert (Hx : 0 <= x <= 0x7F).
  { rewrite Forall_forall in Hl. apply Hl. eapply nth_error_In. exact E. }
  unfold decode_run, at_index. rewrite E. cbn [bind].
  rewrite (ascii_top_bit_clear x Hx). cbn [bind fst snd].
  rewrite IH by lia. rewrite wchar_cast_small by lia.
  rewrite (skipn_nth_error _ _ _ E), <- app_assoc.
  replace (i + 1)%nat with (S i) by lia. reflexivity.
Qed.

(** ** A lead byte outside the four classes *)

Lemma decode_run_undefined_lead (b : Build) (inp : list Z) (i : nat) (out : list Z) (x : Z) :
  nth_error inp i = Some x -> byte_range x -> defined_lead_class x = false ->
  decode_run b inp i out = Throw InvalidLeadByte.
Proof.
  intros E Hx Hc. destruct (undefined_lead_masks x Hx Hc) as (C1 & C2 & C3 & C4).
  unfold decode_run, at_index. rewrite E. cbn [bind].
  rewrite C1, C2, C3, C4. reflexivity.
Qed.

(** ** Bit operations as arithmetic *)

Lemma land_shifted_low (x y k : Z) :
  0 <= k -> 0 <= y < 2 ^ k -> Z.land (x * 2 ^ k) y = 0.
Proof.
  intros Hk Hy. apply Z.bits_inj'. intros n Hn.
  rewrite Z.land_spec, Z.bits_0, <- Z.shiftl_mul_pow2 by exact Hk.
  destruct (Z.lt_ge_cases n k) as [Hlt|Hge].
  - rewrite Z.shiftl_spec_low by exact Hlt. reflexivity.
  - replace (Z.testbit y n) with false; [apply andb_false_r|].
    symmetry. apply Z.testbit_false; [exact Hn|].
    rewrite Z.div_small; [reflexivity|].
    split; [lia|]. apply Z.lt_le_trans with (2 ^ k); [lia|].
    apply Z.pow_le_mono_r; lia.
Qed.

Lemma lor_disjoint_add (x y k : Z) :
  0 <= k -> 0 <= y < 2 ^ k -> Z.lor (x * 2 ^ k) y = x * 2 ^ k + y.
Proof.
  intros Hk Hy. pose proof (Z.add_lor_land (x * 2 ^ k) y) as H.
  rewrite land_shifted_low in H by assumption. lia.
Qed.

Lemma lor_tag (a t k : Z) :
  0 <= k -> 0 <= a < 2 ^ k -> Z.lor a (t * 2 ^ k) = t * 2 ^ k + a.
Proof. intros Hk Ha. rewrite Z.lor_comm. apply lor_disjoint_add; assumption. Qed.

Lemma land_3F (x : Z) : Z.land x 0x3F = x mod 0x40.
Proof. change 0x3F with (Z.ones 6). rewrite Z.land_ones by lia. reflexivity. Qed.

(** A continuation byte built by the encoder. *)
Lemma continuation_byte (x : Z) :
  char8 (Z.lor (Z.land x 0x3F) 0x80) = 0x80 + x mod 0x40.
Proof.
  rewrite land_3F.
  pose proof (Z.mod_pos_bound x 0x40 ltac:(lia)) as Hm.
  change 0x80 with (1 * 2 ^ 7) at 1. rewrite lor_tag by lia.
  unfold char8. rewrite Z.mod_small; lia.
Qed.

(** The lead bytes built by the encoder. *)
Lemma lead_byte_2 (w : Z) :
  0 <= w < 0x800 -> char8 (Z.lor (Z.shiftr w 6) 0xC0) = 0xC0 + w / 0x40.
Proof.
  intros Hw. rewrite Z.shiftr_div_pow2 by lia. change (2 ^ 6) with 0x40.
  assert (0 <= w / 0x40 < 0x20) by (split; [apply Z.div_pos|apply Z.div_lt_upper_bound]; lia).
  change 0xC0 with (3 * 2 ^ 6) at 1. rewrite lor_tag by lia.
  unfold char8. rewrite Z.mod_small; lia.
Qed.

Lemma lead_byte_3 (w : Z) :
  0 <= w < 0x10000 -> char8 (Z.lor (Z.shiftr w 12) 0xE0) = 0xE0 + w / 0x1000.
Proof.
  intros Hw. rewrite Z.shiftr_div_pow2 by lia. change (2 ^ 12) with 0x1000.
  assert (0 <= w / 0x1000 < 0x10) by (split; [apply Z.div_pos|apply Z.div_lt_upper_bound]; lia).
  change 0xE0 with (7 * 2 ^ 5) at 1. rewrite lor_tag by lia.
  unfold char8. rewrite Z.mod_small; lia.
Qed.

Lemma lead_byte_4 (cp : Z) :
  0 <= cp < 0x200000 -> char8 (Z.lor (Z.shiftr cp 18) 0xF0) = 0xF0 + cp / 0x40000.
Proof.
  intros Hw. rewrite Z.shiftr_div_pow2 by lia. change (2 ^ 18) with 0x40000.
  assert (0 <= cp / 0x40000 < 0x8) by (split; [apply Z.div_pos|apply Z.div_lt_upper_bound]; lia).
  change 0xF0 with (15 * 2 ^ 4) at 1. rewrite lor_tag by lia.
  unfold char8. rewrite Z.mod_small; lia.
Qed.

Lemma shiftr_6 (x : Z) : Z.shiftr x 6 = x / 0x40.
Proof. rewrite Z.shiftr_div_pow2 by lia. reflexivity. Qed.

Lemma shiftr_12 (x : Z) : Z.shiftr x 12 = x / 0x1000.
Proof. rewrite Z.shiftr_div_pow2 by lia. reflexivity. Qed.

(** ** The encoder on well-formed input *)

Ltac decide_tests :=
  repeat (match goal with
          | |- context [?a <=? ?b] =>
              first [ replace (a <=? b) with true by (symmetry; apply Z.leb_le; lia)
                    | replace (a <=? b) with false by (symmetry; apply Z.leb_gt; lia) ]
          | |- context [?a <? ?b] =>
              first [ replace (a <? b) with true by (symmetry; apply Z.ltb_lt; lia)
                    | replace (a <? b) with false by (symmetry; apply Z.ltb_ge; lia) ]
          end; cbn [andb]).

Lemma is_surrogate_false (w : Z) : is_surrogate w = false -> w < 0xD800 \/ 0xDFFF < w.
Proof. unfold is_surrogate. lia. Qed.

(** A unit of the basic plane that is no surrogate is encoded as the
    table says, and leaves the carry alone. *)
Lemma encode_unit_bmp (utf16 : bool) (codePoint : Z) (out : list Z) (w : Z) :
  0 <= w <= 0xFFFF -> is_surrogate w = false ->
  encode_unit utf16 codePoint out w = Ok (codePoint, out ++ utf8_of w).
Proof.
  intros Hw Hs. apply is_surrogate_false in Hs.
  unfold encode_unit, utf8_of.
  destruct Hs; destruct (Z.le_gt_cases w 0x7F); destruct (Z.le_gt_cases w 0x7FF);
    decide_tests; rewrite ?andb_false_r; cbn [andb];
    rewrite ?lead_byte_2, ?lead_byte_3, ?continuation_byte, ?shiftr_6, ?char8_small by lia;
    reflexivity.
Qed.

(** ** Pairs *)

Lemma encode_loop_app (utf16 : bool) (l1 l2 : list Z) :
  forall codePoint out,
    encode_loop utf16 (l1 ++ l2) codePoint out =
    (st <- encode_loop utf16 l1 codePoint out ;;
     encode_loop utf16 l2 (fst st) (snd st)).
Proof.
  induction l1 as [|w l1 IH]; intros codePoint out; cbn [app encode_loop bind].
  - reflexivity.
  - destruct (encode_unit utf16 codePoint out w) as [st| | |]; cbn [bind];
      [apply IH | reflexivity ..].
Qed.

Lemma is_high_surrogate_range (h : Z) :
  is_high_surrogate h = true -> 0xD800 <= h <= 0xDBFF.
Proof. unfold is_high_surrogate. lia. Qed.

Lemma is_low_surrogate_range (l : Z) :
  is_low_surrogate l = true -> 0xDC00 <= l <= 0xDFFF.
Proof. unfold is_low_surrogate. lia. Qed.

Lemma encode_unit_high (codePoint : Z) (out : list Z) (h : Z) :
  is_high_surrogate h = true ->
  encode_unit true codePoint out h = Ok ((h - 0xD800) * 0x400, out).
Proof.
  intros Hh. apply is_high_surrogate_range in Hh.
  unfold encode_unit. decide_tests. cbn [andb].
  unfold uint32. rewrite Z.mod_small by lia. reflexivity.
Qed.

(** A low surrogate met with carry [codePoint]: outside the guarded range
    and with the sum in range, the four bytes of the sum are emitted and
    the sum becomes the carry. *)
Lemma encode_unit_low (codePoint : Z) (out : list Z) (l : Z) :
  is_low_surrogate l = true ->
  0 <= codePoint -> is_surrogate codePoint = false ->
  codePoint + (l - 0xDC00) + 0x10000 <= 0x10FFFF ->
  encode_unit true codePoint out l =
  Ok (codePoint + (l - 0xDC00) + 0x10000,
      out ++ utf8_of (codePoint + (l - 0xDC00) + 0x10000)).
Proof.
  intros Hl Hc Hs Hcp. apply is_low_surrogate_range in Hl.
  unfold encode_unit. unfold is_surrogate in Hs. rewrite Hs.
  decide_tests. cbn [andb].
  unfold uint32. rewrite (Z.mod_small (codePoint + (l - 0xDC00))) by lia.
  rewrite (Z.mod_small (codePoint + (l - 0xDC00) + 0x10000)) by lia.
  set (cp := codePoint + (l - 0xDC00) + 0x10000) in *.
  assert (0x10000 <= cp) by (unfold cp; lia). clearbody cp.
  unfold utf8_of. decide_tests.
  rewrite lead_byte_4, !continuation_byte, shiftr_12, shiftr_6 by lia.
  reflexivity.
Qed.

(** A high surrogate followed by a low surrogate, whatever the carry was
    before: unless the high surrogate is D836 or D837, the four bytes of
    the code point are emitted and the code point stays in the carry. *)
Lemma encode_surrogate_pair (codePoint : Z) (out : list Z) (h l : Z) :
  is_high_surrogate h = true -> is_low_surrogate l = true ->
  h <> 0xD836 -> h <> 0xD837 ->
  let cp := 0x10000 + (h - 0xD800) * 0x400 + (l - 0xDC00) in
  encode_loop true [h; l] codePoint out = Ok (cp, out ++ utf8_of cp).
Proof.
  intros Hh Hl H36 H37 cp. cbn [encode_loop].
  rewrite (encode_unit_high _ _ _ Hh). cbn [bind fst snd].
  apply is_high_surrogate_range in Hh.
  pose proof (is_low_surrogate_range _ Hl) as Hl'.
  rewrite (encode_unit_low _ _ _ Hl); [| lia | unfold is_surrogate; lia | lia].
  cbn [bind fst snd].
  replace ((h - 0xD800) * 0x400 + (l - 0xDC00) + 0x10000) with cp by (unfold cp; lia).
  reflexivity.
Qed.

Lemma wideEncodingOf_supplementary (cp : Z) :
  0x10000 <= cp <= 0x10FFFF ->
  exists h l,
    wideEncodingOf cp = [h; l] /\
    is_high_surrogate h = true /\ is_low_surrogate l = true /\
    0x10000 + (h - 0xD800) * 0x400 + (l - 0xDC00) = cp /\
    (0x1D800 <= cp <= 0x1DFFF <-> h = 0xD836 \/ h = 0xD837).
Proof.
  intros Hcp. unfold wideEncodingOf, spec_surrogate_pair.
  replace (cp <? 0x10000) with false by (symmetry; apply Z.ltb_ge; lia).
  rewrite Z.shiftr_div_pow2 by lia. change (2 ^ 10) with 0x400.
  eexists. eexists. split; [reflexivity|].
  unfold is_high_surrogate, is_low_surrogate.
  pose proof (Z.div_mod (cp - 0x10000) 0x400 ltac:(lia)).
  pose proof (Z.mod_pos_bound (cp - 0x10000) 0x400 ltac:(lia)).
  repeat split; intros; lia.
Qed.

Lemma encode_loop_wide (codePoint : Z) (out : list Z) (cp : Z) :
  encodable cp = true ->
  exists c', encode_loop true (wideEncodingOf cp) codePoint out = Ok (c', out ++ utf8_of cp).
Proof.
  unfold encodable, is_scalar, in_U1D800_block. intros He.
  destruct (Z.lt_ge_cases cp 0x10000) as [Hbmp|Hsup].
  - exists codePoint. unfold wideEncodingOf.
    replace (cp <? 0x10000) with true by (symmetry; apply Z.ltb_lt; lia).
    cbn [encode_loop]. rewrite encode_unit_bmp; [reflexivity | lia |].
    destruct (is_surrogate cp); [|reflexivity]. cbn in He. lia.
  - destruct (wideEncodingOf_supplementary cp) as (h & l & -> & Hh & Hl & Hsum & Hblk);
      [lia|].
    exists cp. rewrite <- Hsum at 1 2.
    apply encode_surrogate_pair; try assumption; lia.
Qed.

Lemma encode_loop_scalars (cps : list Z) :
  Forall (fun cp => encodable cp = true) cps ->
  forall codePoint out,
  exists c',
    encode_loop true (flat_map wideEncodingOf cps) codePoint out =
    Ok (c', out ++ flat_map utf8_of cps).
Proof.
  induction 1 as [|cp cps Hcp _ IH]; intros codePoint out; cbn [flat_map].
  - exists codePoint. rewrite app_nil_r. reflexivity.
  - destruct (encode_loop_wide codePoint out cp Hcp) as [c1 H1].
    destruct (IH c1 (out ++ utf8_of cp)) as [c2 H2].
    exists c2. rewrite encode_loop_app, H1. cbn [bind fst snd].
    rewrite H2, <- app_assoc. reflexivity.
Qed.

Lemma WideStrToUTF8_Ok_inv (b : Build) (l out : list Z) :
  WideStrToUTF8 b l = Ok out -> exists c, encode_loop true l 0 [] = Ok (c, out).
Proof.
  unfold WideStrToUTF8, WideCharIsUTF16.
  destruct (encode_loop true l 0 []) as [[c o]| | |]; cbn [bind snd]; try discriminate.
  intros [= <-]. exists c. reflexivity.
Qed.

(** Without a low surrogate in the sequence the carry is never read: the
    output does not depend on it. *)
Lemma encode_loop_no_low (utf16 : bool) (l : list Z) :
  Forall (fun u => is_low_surrogate u = false) l ->
  exists bytes, forall codePoint out,
      exists c', encode_loop utf16 l codePoint out = Ok (c', out ++ bytes).
Proof.
  induction 1 as [|u l Hu _ [bytes IH]].
  - exists []. intros codePoint out. exists codePoint. rewrite app_nil_r. reflexivity.
  - assert (Hunit : exists bs, forall codePoint out,
                 exists c', encode_unit utf16 codePoint out u = Ok (c', out ++ bs)).
    { unfold is_low_surrogate in Hu. unfold encode_unit.
      rewrite <- (andb_assoc utf16 (0xDC00 <=? u)), Hu, andb_false_r.
      destruct (u <=? 0x7F); [eexists; intros; eexists; reflexivity|].
      destruct (u <=? 0x7FF); [eexists; intros; eexists; reflexivity|].
      destruct (utf16 && (0xD800 <=? u) && (u <=? 0xDBFF)).
      - exists []. intros c out. eexists. rewrite app_nil_r. reflexivity.
      - eexists; intros; eexists; reflexivity. }
    destruct Hunit as [bs Hbs]. exists (bs ++ bytes). intros codePoint out.
    destruct (Hbs codePoint out) as [c1 H1]. destruct (IH c1 (out ++ bs)) as [c2 H2].
    exists c2. cbn [encode_loop]. rewrite H1. cbn [bind fst snd].
    rewrite H2, <- app_assoc. reflexivity.
Qed.

(** The length of the output grows by at most four bytes per unit. *)
Lemma encode_unit_length (utf16 : bool) (codePoint : Z) (out : list Z) (u : Z) st :
  encode_unit utf16 codePoint out u = Ok st ->
  (length (snd st) <= length out + 4)%nat.
Proof.
  unfold encode_unit.
  repeat match goal with
    | |- context [if ?c then _ else _] => destruct c
    end; intros H; try discriminate;
    apply (f_equal (fun o => match o with Ok s => length (snd s) | _ => O end)) in H;
    cbv beta iota delta [snd] in H; change (snd st) with (let (_, y) := st in y);
    rewrite <- H; rewrite ?length_app; cbn [length]; lia.
Qed.

Lemma encode_loop_length (utf16 : bool) (l : list Z) :
  forall codePoint out st,
    encode_loop utf16 l codePoint out = Ok st ->
    (length (snd st) <= length out + 4 * length l)%nat.
Proof.
  induction l as [|u l IH]; intros codePoint out st H; cbn [encode_loop] in H.
  - injection H as <-. cbn [snd length]. lia.
  - destruct (encode_unit utf16 codePoint out u) as [st1| | |] eqn:E;
      cbn [bind] in H; try discriminate.
    apply encode_unit_length in E. apply IH in H. cbn [length]. lia.
Qed.

(** ** The decoder on a concatenation *)

Lemma at_index_shift (p s : list Z) (k : nat) :
  at_index (p ++ s) (length p + k) = shift_pos (length p) (at_index s k).
Proof.
  unfold at_index. rewrite nth_error_app2 by lia.
  replace (length p + k - length p)%nat with k by lia.
  destruct (nth_error s k); reflexivity.
Qed.

Lemma decode_run_shift (b : Build) (p s : list Z) (i : nat) (out : list Z) :
  decode_run b (p ++ s) (length p + i) out =
  shift_pos (length p)
    (st <- decode_run b s i out ;; Ok ((length p + fst st)%nat, snd st)).
Proof.
  unfold decode_run. rewrite <- !Nat.add_assoc, !at_index_shift.
  repeat match goal with
    | |- context [at_index s ?k] => destruct (at_index s k); cbn [bind shift_pos]
    | |- context [if ?c then _ else _] => destruct c
    end; cbn [bind shift_pos fst snd]; rewrite ?Nat.add_assoc; reflexivity.
Qed.

Lemma decode_loop_shift (b : Build) (p s : list Z) :
  forall fuel i out,
    decode_loop b fuel (p ++ s) (length p + i) out =
    shift_pos (length p) (decode_loop b fuel s i out).
Proof.
  induction fuel as [|fuel IH]; intros i out; cbn [decode_loop];
    replace (length p + i <? length (p ++ s))%nat with (i <? length s)%nat
      by (rewrite length_app; destruct (Nat.ltb_spec i (length s));
          symmetry; [apply Nat.ltb_lt | apply Nat.ltb_ge]; lia);
    destruct (i <? length s)%nat; try reflexivity.
  rewrite decode_run_shift.
  destruct (decode_run b s i out) as [[j o]| | |]; cbn [bind shift_pos fst snd];
    try reflexivity.
  apply IH.
Qed.

Lemma decode_run_out_prefix (b : Build) (s : list Z) (i : nat) (u o : list Z) :
  decode_run b s i (u ++ o) =
  (st <- decode_run b s i o ;; Ok (fst st, u ++ snd st)).
Proof.
  unfold decode_run.
  repeat match goal with
    | |- context [at_index s ?k] => destruct (at_index s k); cbn [bind]
    | |- context [if ?c then _ else _] => destruct c
    end; cbn [bind fst snd]; rewrite <- ?app_assoc; reflexivity.
Qed.

Lemma decode_loop_out_prefix (b : Build) (s u : list Z) :
  forall fuel i o,
    decode_loop b fuel s i (u ++ o) =
    (v <- decode_loop b fuel s i o ;; Ok (u ++ v)).
Proof.
  induction fuel as [|fuel IH]; intros i o; cbn [decode_loop];
    destruct (i <? length s)%nat; try reflexivity.
  rewrite decode_run_out_prefix.
  destruct (decode_run b s i o) as [[j o']| | |]; cbn [bind fst snd]; try reflexivity.
  apply IH.
Qed.

(** When [p] decodes completely, decoding [p ++ s] continues with [s]. *)
Lemma decode_app (b : Build) (p s u : list Z) :
  UTF8ToWideStr b p = Ok u ->
  UTF8ToWideStr b (p ++ s) =
  shift_pos (length p) (v <- UTF8ToWideStr b s ;; Ok (u ++ v)).
Proof.
  unfold UTF8ToWideStr. intros Hp.
  rewrite (decode_loop_app b p s _ _ _ _ Hp) by lia.
  rewrite <- (Nat.add_0_r (length p)) at 1.
  rewrite <- (app_nil_r u) at 1.
  rewrite decode_loop_shift, decode_loop_out_prefix.
  destruct (decode_loop b (length s) s 0 []); reflexivity.
Qed.

(** ** Single runs *)

Lemma lead2_masks (x : Z) :
  0xC0 <= x < 0xE0 ->
  (Z.land x 0x80 =? 0) = false /\ (Z.land x 0xE0 =? 0xC0) = true /\
  Z.land x 0x1F = x - 0xC0.
Proof.
  intros Hx.
  assert (H : (negb ((0xC0 <=? x) && (x <? 0xE0))
               || (negb (Z.land x 0x80 =? 0) && (Z.land x 0xE0 =? 0xC0)
                   && (Z.land x 0x1F =? x - 0xC0))) = true).
  { apply (forall_below 256
             (fun x => negb ((0xC0 <=? x) && (x <? 0xE0))
                       || (negb (Z.land x 0x80 =? 0) && (Z.land x 0xE0 =? 0xC0)
                           && (Z.land x 0x1F =? x - 0xC0))));
      [vm_compute; reflexivity | lia]. }
  replace ((0xC0 <=? x) && (x <? 0xE0)) with true in H by lia. cbn [negb orb] in H.
  apply andb_prop in H. destruct H as [H H3].
  apply andb_prop in H. destruct H as [H1 H2].
  apply negb_true_iff in H1. apply Z.eqb_eq in H3. auto.
Qed.

Lemma lead3_masks (x : Z) :
  0xE0 <= x < 0xF0 ->
  (Z.land x 0x80 =? 0) = false /\ (Z.land x 0xE0 =? 0xC0) = false /\
  (Z.land x 0xF0 =? 0xE0) = true /\ Z.land x 0x0F = x - 0xE0.
Proof.
  intros Hx.
  assert (H : (negb ((0xE0 <=? x) && (x <? 0xF0))
               || (negb (Z.land x 0x80 =? 0) && negb (Z.land x 0xE0 =? 0xC0)
                   && (Z.land x 0xF0 =? 0xE0) && (Z.land x 0x0F =? x - 0xE0))) = true).
  { apply (forall_below 256
             (fun x => negb ((0xE0 <=? x) && (x <? 0xF0))
                       || (negb (Z.land x 0x80 =? 0) && negb (Z.land x 0xE0 =? 0xC0)
                           && (Z.land x 0xF0 =? 0xE0) && (Z.land x 0x0F =? x - 0xE0))));
      [vm_compute; reflexivity | lia]. }
  replace ((0xE0 <=? x) && (x <? 0xF0)) with true in H by lia. cbn [negb orb] in H.
  apply andb_prop in H. destruct H as [H H4].
  apply andb_prop in H. destruct H as [H H3].
  apply andb_prop in H. destruct H as [H1 H2].
  apply negb_true_iff in H1, H2. apply Z.eqb_eq in H4. auto.
Qed.

Lemma lead4_masks (x : Z) :
  0xF0 <= x < 0xF8 ->
  (Z.land x 0x80 =? 0) = false /\ (Z.land x 0xE0 =? 0xC0) = false /\
  (Z.land x 0xF0 =? 0xE0) = false /\ (Z.land x 0xF8 =? 0xF0) = true /\
  Z.land x 0x07 = x - 0xF0.
Proof.
  intros Hx.
  assert (H : (negb ((0xF0 <=? x) && (x <? 0xF8))
               || (negb (Z.land x 0x80 =? 0) && negb (Z.land x 0xE0 =? 0xC0)
                   && negb (Z.land x 0xF0 =? 0xE0) && (Z.land x 0xF8 =? 0xF0)
                   && (Z.land x 0x07 =? x - 0xF0))) = true).
  { apply (forall_below 256
             (fun x => negb ((0xF0 <=? x) && (x <? 0xF8))
                       || (negb (Z.land x 0x80 =? 0) && negb (Z.land x 0xE0 =? 0xC0)
                           && negb (Z.land x 0xF0 =? 0xE0) && (Z.land x 0xF8 =? 0xF0)
                           && (Z.land x 0x07 =? x - 0xF0))));
      [vm_compute; reflexivity | lia]. }
  replace ((0xF0 <=? x) && (x <? 0xF8)) with true in H by lia. cbn [negb orb] in H.
  apply andb_prop in H. destruct H as [H H5].
  apply andb_prop in H. destruct H as [H H4].
  apply andb_prop in H. destruct H as [H H3].
  apply andb_prop in H. destruct H as [H1 H2].
  apply negb_true_iff in H1, H2, H3. apply Z.eqb_eq in H5. auto.
Qed.

Lemma continuation_payload (y : Z) : 0x80 <= y < 0xC0 -> Z.land y 0x3F = y - 0x80.
Proof.
  intros Hy. rewrite land_3F.
  replace y with ((y - 0x80) + 2 * 0x40) at 1 by lia.
  rewrite Z.mod_add, Z.mod_small; lia.
Qed.

(** Payload bits put together by the decoder. *)
Lemma payload_2 (a m : Z) :
  0 <= m < 0x40 -> Z.lor (Z.shiftl a 6) m = a * 0x40 + m.
Proof.
  intros Hm. rewrite Z.shiftl_mul_pow2 by lia.
  rewrite lor_disjoint_add by lia. reflexivity.
Qed.

Lemma payload_3 (a m1 m2 : Z) :
  0 <= m1 < 0x40 -> 0 <= m2 < 0x40 ->
  Z.lor (Z.lor (Z.shiftl a 12) (Z.shiftl m1 6)) m2 = a * 0x1000 + m1 * 0x40 + m2.
Proof.
  intros H1 H2. rewrite !Z.shiftl_mul_pow2 by lia.
  rewrite (lor_disjoint_add a) by lia.
  replace (a * 2 ^ 12 + m1 * 2 ^ 6) with ((a * 0x40 + m1) * 2 ^ 6) by lia.
  rewrite lor_disjoint_add by lia. lia.
Qed.

Lemma payload_4 (a m1 m2 m3 : Z) :
  0 <= m1 < 0x40 -> 0 <= m2 < 0x40 -> 0 <= m3 < 0x40 ->
  Z.lor (Z.lor (Z.lor (Z.shiftl a 24) (Z.shiftl m1 12)) (Z.shiftl m2 6)) m3 =
  a * 0x1000000 + m1 * 0x1000 + m2 * 0x40 + m3.
Proof.
  intros H1 H2 H3. rewrite !Z.shiftl_mul_pow2 by lia.
  rewrite (lor_disjoint_add a) by lia.
  replace (a * 2 ^ 24 + m1 * 2 ^ 12) with ((a * 0x1000 + m1) * 2 ^ 12) by lia.
  rewrite (lor_disjoint_add (a * 0x1000 + m1)) by lia.
  replace ((a * 0x1000 + m1) * 2 ^ 12 + m2 * 2 ^ 6)
    with (((a * 0x1000 + m1) * 0x40 + m2) * 2 ^ 6) by lia.
  rewrite lor_disjoint_add by lia. lia.
Qed.

Lemma decode_loop_step (b : Build) (fuel : nat) (inp : list Z) (i : nat) (out : list Z) st :
  (i < length inp)%nat -> decode_run b inp i out = Ok st ->
  decode_loop b (S fuel) inp i out = decode_loop b fuel inp (fst st) (snd st).
Proof.
  intros Hi Hr. cbn [decode_loop].
  replace (i <? length inp)%nat with true by (symmetry; apply Nat.ltb_lt; exact Hi).
  rewrite Hr. reflexivity.
Qed.

Lemma decode_loop_done (b : Build) (fuel : nat) (inp : list Z) (i : nat) (out : list Z) :
  (length inp <= i)%nat -> decode_loop b fuel inp i out = Ok out.
Proof.
  intros Hi. destruct fuel; cbn [decode_loop];
    replace (i <? length inp)%nat with false by (symmetry; apply Nat.ltb_ge; exact Hi);
    reflexivity.
Qed.

Lemma wchar_cast_nonneg (b : Build) (x : Z) :
  has_WIN32 b = false -> 0 <= x < 0x80000000 -> wchar_cast b x = x.
Proof.
  intros Hb Hx. unfold wchar_cast. rewrite Hb. rewrite Z.mod_small; lia.
Qed.

Lemma utf8_of_payload_bounds (cp : Z) :
  0 <= cp / 0x40 mod 0x40 < 0x40 /\ 0 <= cp mod 0x40 < 0x40 /\
  0 <= cp / 0x1000 mod 0x40 < 0x40.
Proof. repeat split; apply Z.mod_pos_bound; lia. Qed.

Ltac div_lia := Z.div_mod_to_equations; lia.

Ltac read_bytes :=
  unfold at_index; cbn [nth_error Nat.add bind].

Lemma decode_utf8_of_1 (b : Build) (cp : Z) :
  0 <= cp < 0x80 -> UTF8ToWideStr b (utf8_of cp) = Ok [cp].
Proof.
  intros Hcp. unfold utf8_of. decide_tests.
  unfold UTF8ToWideStr. rewrite decode_loop_ascii; [reflexivity | | cbn [length]; lia].
  constructor; [lia | constructor].
Qed.

Lemma decode_utf8_of_2 (b : Build) (cp : Z) :
  0x80 <= cp < 0x800 -> UTF8ToWideStr b (utf8_of cp) = Ok [cp].
Proof.
  intros Hcp. unfold utf8_of. decide_tests.
  destruct (utf8_of_payload_bounds cp) as (_ & Hm & _).
  assert (Ha : 0 <= cp / 0x40 < 0x20)
    by (split; [apply Z.div_pos | apply Z.div_lt_upper_bound]; lia).
  destruct (lead2_masks (0xC0 + cp / 0x40)) as (T1 & T2 & P); [lia|].
  unfold UTF8ToWideStr. cbn [length].
  erewrite decode_loop_step; [| cbn [length]; lia |].
  2:{ unfold decode_run. read_bytes. rewrite T1, T2. read_bytes.
      rewrite P, continuation_payload, payload_2 by lia. reflexivity. }
  cbn [fst snd]. rewrite decode_loop_done by (cbn [length]; lia).
  rewrite wchar_cast_small by lia. cbn [app]. do 2 f_equal. div_lia.
Qed.

Lemma decode_utf8_of_3 (b : Build) (cp : Z) :
  0x800 <= cp < 0x10000 -> UTF8ToWideStr b (utf8_of cp) = Ok [cp].
Proof.
  intros Hcp. unfold utf8_of. decide_tests.
  destruct (utf8_of_payload_bounds cp) as (Hm1 & Hm2 & _).
  assert (Ha : 0 <= cp / 0x1000 < 0x10)
    by (split; [apply Z.div_pos | apply Z.div_lt_upper_bound]; lia).
  destruct (lead3_masks (0xE0 + cp / 0x1000)) as (T1 & T2 & T3 & P); [lia|].
  unfold UTF8ToWideStr. cbn [length].
  erewrite decode_loop_step; [| cbn [length]; lia |].
  2:{ unfold decode_run. read_bytes. rewrite T1, T2, T3. read_bytes.
      rewrite P, !continuation_payload, payload_3 by lia. reflexivity. }
  cbn [fst snd]. rewrite decode_loop_done by (cbn [length]; lia).
  rewrite wchar_cast_small by lia. cbn [app]. do 2 f_equal. div_lia.
Qed.

Lemma decode_utf8_of_4 (b : Build) (cp : Z) :
  0x10000 <= cp <= 0x10FFFF ->
  UTF8ToWideStr b (utf8_of cp) =
  Ok (if has_WIN32 b
      then [((assembled_4 cp - 0x10000) / 0x400 + 0xD800) mod 0x10000;
            cp mod 0x400 + 0xDC00]
      else [assembled_4 cp]).
Proof.
  intros Hcp. unfold utf8_of. decide_tests.
  destruct (utf8_of_payload_bounds cp) as (Hm2 & Hm3 & Hm1).
  assert (Ha : 0 <= cp / 0x40000 < 0x8)
    by (split; [apply Z.div_pos | apply Z.div_lt_upper_bound]; lia).
  destruct (lead4_masks (0xF0 + cp / 0x40000)) as (T1 & T2 & T3 & T4 & P); [lia|].
  assert (Hv : cp / 0x40000 * 0x1000000 + cp / 0x1000 mod 0x40 * 0x1000
               + cp / 0x40 mod 0x40 * 0x40 + cp mod 0x40 = assembled_4 cp)
    by (unfold assembled_4; div_lia).
  assert (Hr : 0x10000 <= assembled_4 cp < 0x8000000) by (unfold assembled_4; div_lia).
  unfold UTF8ToWideStr. cbn [length].
  assert (Hrun : decode_run b
                   [0xF0 + cp / 0x40000; 0x80 + cp / 0x1000 mod 0x40;
                    0x80 + cp / 0x40 mod 0x40; 0x80 + cp mod 0x40] 0 [] =
                 Ok (4%nat,
                     if has_WIN32 b
                     then [wchar_cast b
                             (uint32 (Z.shiftr (uint32 (uint32 (assembled_4 cp) - 0x10000)) 10
                                      + 0xD800));
                           wchar_cast b (uint32 (uint32 (assembled_4 cp) mod 0x400 + 0xDC00))]
                     else [wchar_cast b (assembled_4 cp)])).
  { unfold decode_run. read_bytes. rewrite T1, T2, T3, T4. read_bytes.
    rewrite P, !continuation_payload, payload_4 by lia.
    replace (0xF0 + cp / 0x40000 - 0xF0) with (cp / 0x40000) by lia.
    replace (0x80 + cp / 0x1000 mod 0x40 - 0x80) with (cp / 0x1000 mod 0x40) by lia.
    replace (0x80 + cp / 0x40 mod 0x40 - 0x80) with (cp / 0x40 mod 0x40) by lia.
    replace (0x80 + cp mod 0x40 - 0x80) with (cp mod 0x40) by lia.
    rewrite Hv. destruct (has_WIN32 b); reflexivity. }
  erewrite decode_loop_step; [| cbn [length]; lia | exact Hrun].
  cbn [fst snd]. rewrite decode_loop_done by (cbn [length]; lia).
  destruct (has_WIN32 b) eqn:Hb.
  - unfold uint32, wchar_cast. rewrite Hb.
    rewrite (Z.mod_small (assembled_4 cp) 0x100000000) by lia.
    rewrite (Z.mod_small (assembled_4 cp - 0x10000)) by lia.
    rewrite Z.shiftr_div_pow2 by lia. change (2 ^ 10) with 0x400.
    assert (0 <= (assembled_4 cp - 0x10000) / 0x400 < 0x20000)
      by (split; [apply Z.div_pos | apply Z.div_lt_upper_bound]; lia).
    pose proof (Z.mod_pos_bound (assembled_4 cp) 0x400 ltac:(lia)).
    rewrite (Z.mod_small (_ / 0x400 + 0xD800) 0x100000000) by lia.
    rewrite (Z.mod_small (_ mod 0x400 + 0xDC00) 0x100000000) by lia.
    rewrite (Z.mod_small (_ mod 0x400 + 0xDC00) 0x10000) by lia.
    replace (assembled_4 cp mod 0x400) with (cp mod 0x400)
      by (unfold assembled_4; div_lia).
    reflexivity.
  - rewrite wchar_cast_nonneg; [reflexivity | exact Hb | lia].
Qed.

Lemma decode_utf8_of (b : Build) (cp : Z) :
  0 <= cp < 0x40000 -> UTF8ToWideStr b (utf8_of cp) = Ok (decoded_units b cp).
Proof.
  intros Hcp. unfold decoded_units, wideEncodingOf, spec_surrogate_pair.
  destruct (Z.ltb_spec cp 0x10000) as [Hbmp|Hsup].
  - replace (if has_WIN32 b then [cp] else [cp]) with [cp]
      by (destruct (has_WIN32 b); reflexivity).
    destruct (Z.lt_ge_cases cp 0x80); [apply decode_utf8_of_1; lia|].
    destruct (Z.lt_ge_cases cp 0x800); [apply decode_utf8_of_2; lia|].
    apply decode_utf8_of_3; lia.
  - rewrite decode_utf8_of_4 by lia.
    assert (Ha : assembled_4 cp = cp) by (unfold assembled_4; div_lia).
    rewrite Ha, Z.shiftr_div_pow2 by lia. change (2 ^ 10) with 0x400.
    destruct (has_WIN32 b); [|reflexivity].
    assert (0 <= (cp - 0x10000) / 0x400 < 0x100)
      by (split; [apply Z.div_pos | apply Z.div_lt_upper_bound]; lia).
    rewrite Z.mod_small by lia.
    replace ((cp - 0x10000) mod 0x400) with (cp mod 0x400) by div_lia.
    reflexivity.
Qed.

Lemma decode_scalars (b : Build) (cps : list Z) :
  Forall (fun cp => 0 <= cp < 0x40000) cps ->
  UTF8ToWideStr b (flat_map utf8_of cps) = Ok (flat_map (decoded_units b) cps).
Proof.
  induction 1 as [|cp cps Hcp _ IH]; cbn [flat_map]; [reflexivity|].
  rewrite (decode_app b _ _ _ (decode_utf8_of b cp Hcp)), IH. reflexivity.
Qed.

(** ** Complete and truncated runs *)


Lemma decode_truncated_run (b : Build) (x : Z) (t : list Z) :
  byte_range x -> defined_lead_class x = true ->
  (S (length t) < run_length x)%nat ->
  UTF8ToWideStr b (x :: t) = OutOfBounds (S (length t)).
Proof.
  intros Hx Hc Ht. destruct (lead_masks_agree x Hx) as (T1 & T2 & T3 & T4).
  unfold defined_lead_class in Hc. unfold run_length in Ht.
  unfold UTF8ToWideStr.
  destruct (is_0xxxxxxx x); [|destruct (is_110xxxxx x);
    [|destruct (is_1110xxxx x); [|destruct (is_11110xxx x); [|discriminate]]]];
    repeat (let y := fresh "y" in destruct t as [|y t]; cbn [length] in Ht; try lia);
    cbn [length decode_loop Nat.ltb Nat.leb];
    unfold decode_run; read_bytes; rewrite ?T1, ?T2, ?T3, ?T4; read_bytes;
    reflexivity.
Qed.

(** ** Lengths *)



(** ** Low surrogates that follow a high surrogate *)

Lemma encode_unit_plain (codePoint : Z) (out : list Z) (u : Z) :
  is_low_surrogate u = false -> is_high_surrogate u = false ->
  exists bytes, encode_unit true codePoint out u = Ok (codePoint, out ++ bytes).
Proof.
  unfold is_low_surrogate, is_high_surrogate. intros Hl Hh. unfold encode_unit.
  cbn [andb]. rewrite Hl, Hh.
  destruct (u <=? 0x7F); [eexists; reflexivity|].
  destruct (u <=? 0x7FF); eexists; reflexivity.
Qed.

Lemma encode_loop_paired_in_range (l : list Z) :
  forall prev codePoint out,
    lows_paired prev l = true ->
    (prev = true -> 0 <= codePoint <= 0xFFC00) ->
    encode_loop true l codePoint out <> Throw SurrogateOutOfRange.
Proof.
  induction l as [|u l IH]; intros prev codePoint out Hp Hc; cbn [encode_loop];
    [discriminate|].
  cbn [lows_paired] in Hp. apply andb_prop in Hp. destruct Hp as [Hu Hp].
  destruct (is_low_surrogate u) eqn:Hl.
  - cbn [negb orb] in Hu. specialize (Hc Hu).
    pose proof (is_low_surrogate_range _ Hl) as Hr.
    assert (Hh : is_high_surrogate u = false) by (unfold is_high_surrogate; lia).
    rewrite Hh in Hp.
    destruct (is_surrogate codePoint) eqn:Hs.
    + unfold encode_unit. decide_tests. unfold is_surrogate in Hs. rewrite Hs.
      cbn [bind]. discriminate.
    + rewrite encode_unit_low by (try assumption; lia). cbn [bind fst snd].
      apply (IH false); [exact Hp | discriminate].
  - destruct (is_high_surrogate u) eqn:Hh.
    + rewrite encode_unit_high by exact Hh. cbn [bind fst snd].
      apply is_high_surrogate_range in Hh.
      apply (IH true); [exact Hp | intros _; lia].
    + destruct (encode_unit_plain codePoint out u Hl Hh) as [bytes ->].
      cbn [bind fst snd]. apply (IH false); [exact Hp | discriminate].
Qed.

Lemma encode_loop_paired_ok (l : list Z) :
  Forall (fun u => u <> 0xD836 /\ u <> 0xD837) l ->
  forall prev codePoint out,
    lows_paired prev l = true ->
    (prev = true -> 0 <= codePoint <= 0xFFC00 /\ is_surrogate codePoint = false) ->
    is_ok (encode_loop true l codePoint out) = true.
Proof.
  induction 1 as [|u l [H36 H37] _ IH]; intros prev codePoint out Hp Hc;
    cbn [encode_loop]; [reflexivity|].
  cbn [lows_paired] in Hp. apply andb_prop in Hp. destruct Hp as [Hu Hp].
  destruct (is_low_surrogate u) eqn:Hl.
  - cbn [negb orb] in Hu. destruct (Hc Hu) as [Hr Hs].
    pose proof (is_low_surrogate_range _ Hl) as Hlr.
    assert (Hh : is_high_surrogate u = false) by (unfold is_high_surrogate; lia).
    rewrite Hh in Hp.
    rewrite encode_unit_low by (try assumption; lia). cbn [bind fst snd].
    apply (IH false); [exact Hp | discriminate].
  - destruct (is_high_surrogate u) eqn:Hh.
    + rewrite encode_unit_high by exact Hh. cbn [bind fst snd].
      apply is_high_surrogate_range in Hh.
      apply (IH true); [exact Hp | intros _; split; [lia | unfold is_surrogate; lia]].
    + destruct (encode_unit_plain codePoint out u Hl Hh) as [bytes ->].
      cbn [bind fst snd]. apply (IH false); [exact Hp | discriminate].
Qed.

(** * The claims *)

(** Claim C1 (round trip of every code point through [WideStrToUTF8] and
    [UTF8ToWideStr], 16-bit build).  The code does not round-trip every
    code point.  U+1D800 has the wide form [D836 DC00]; the encoder
    rejects it, because the carry left by the high surrogate, 0xD800,
    lies in the range the low-surrogate branch tests for.  U+40000 has
    the wide form [D8C0 DC00] and is encoded as F1 80 80 80; the decoder
    shifts the lead byte's payload by 24 and returns [17C0 DC00]. *)
Theorem roundtrip_breaks_at_U1D800_and_U40000 :
  wideEncodingOf 0x1D800 = [0xD836; 0xDC00] /\
  WideStrToUTF8 windows (wideEncodingOf 0x1D800) = Throw UnpairedLowSurrogate /\
  wideEncodingOf 0x40000 = [0xD8C0; 0xDC00] /\
  WideStrToUTF8 windows (wideEncodingOf 0x40000) = Ok [0xF1; 0x80; 0x80; 0x80] /\
  roundtrip windows 0x40000 = Ok [0x17C0; 0xDC00].
Proof. repeat apply conj; vm_compute; reflexivity. Qed.

(** Claim C2 (4-byte run: code point from 3+6+6+6 payload bits, emitted
    as a surrogate pair in the 16-bit build).  The code shifts the lead
    byte's three payload bits by 24, not 18: for the run F1 80 80 80
    (U+40000) it emits [17C0 DC00], where the claim's formulas give
    [D8C0 DC00]. *)
Theorem four_byte_run_lead_payload_shifted_by_24 :
  UTF8ToWideStr windows [0xF1; 0x80; 0x80; 0x80] = Ok [0x17C0; 0xDC00] /\
  spec_cp4 0xF1 0x80 0x80 0x80 = 0x40000 /\
  spec_surrogate_pair (spec_cp4 0xF1 0x80 0x80 0x80) = [0xD8C0; 0xDC00].
Proof. repeat apply conj; vm_compute; reflexivity. Qed.

(** Claim C3 (the encoder fails on an invalid surrogate construction, in
    particular on the lone low surrogate [DC00]).  The code accepts
    [DC00]: the carry is still 0, which is outside the range D800-DFFF the
    guard tests, and the unit is encoded as U+10000. *)
Theorem lone_low_surrogate_is_encoded (b : Build) :
  WideStrToUTF8 b [0xDC00] = Ok [0xF0; 0x90; 0x80; 0x80].
Proof. vm_compute. reflexivity. Qed.

(** Claim C4 (the carry is zero at the start and cleared after every
    pairing, so what follows a pair does not depend on it).  The code
    never clears [codePoint]: after the pair [D801 DC37] it holds 0x10437,
    and the same third unit DC00 yields F0 A0 80 80 after the pair
    [D800 DC00] but F0 A0 90 80 after the pair [D801 DC00]. *)
Theorem carry_is_kept_after_pairing :
  encode_loop true [0xD801; 0xDC37] 0 [] = Ok (0x10437, [0xF0; 0x90; 0x90; 0xB7]) /\
  WideStrToUTF8 windows [0xD800; 0xDC00; 0xDC00] =
    Ok [0xF0; 0x90; 0x80; 0x80; 0xF0; 0xA0; 0x80; 0x80] /\
  WideStrToUTF8 windows [0xD801; 0xDC00; 0xDC00] =
    Ok [0xF0; 0x90; 0x90; 0x80; 0xF0; 0xA0; 0x90; 0x80].
Proof. repeat apply conj; vm_compute; reflexivity. Qed.

(** Claim C5 (one width selection governs both functions).  The encoder
    tests [WideCharIsUTF16], which the header always defines; the decoder
    tests [_WIN32].  In a build without [_WIN32] the encoder pairs
    surrogates while the decoder emits the code point of a 4-byte run as
    one unit. *)
Theorem width_selection_differs_without_WIN32 :
  WideCharIsUTF16 posix = true /\ has_WIN32 posix = false /\
  WideStrToUTF8 posix [0xD801; 0xDC37] = Ok [0xF0; 0x90; 0x90; 0xB7] /\
  UTF8ToWideStr posix [0xF0; 0x90; 0x90; 0xB7] = Ok [0x10437].
Proof. repeat apply conj; vm_compute; reflexivity. Qed.

(** Claim C6 (the decoder reads only positions inside the input).  The
    code indexes the continuation bytes without comparing with
    [in.size()]: on [C3] it reads position 1 and on [F0 90] position 2,
    both past the end. *)
Theorem truncated_run_is_read_past_the_end (b : Build) :
  UTF8ToWideStr b [0xC3] = OutOfBounds 1 /\
  UTF8ToWideStr b [0xF0; 0x90] = OutOfBounds 2.
Proof. split; vm_compute; reflexivity. Qed.

(** Claim C7.  When the bytes before it decode completely, a lead byte
    that matches none of 0xxxxxxx, 110xxxxx, 1110xxxx, 11110xxx makes
    [UTF8ToWideStr] throw the invalid-lead-byte exception; no output is
    returned.  With no bytes before it and the byte 0x80 this is the bare
    continuation byte of the claim. *)
Theorem undefined_lead_byte_is_rejected
  (b : Build) (pre rest w : list Z) (x : Z) :
  byte_range x -> defined_lead_class x = false ->
  UTF8ToWideStr b pre = Ok w ->
  UTF8ToWideStr b (pre ++ x :: rest) = Throw InvalidLeadByte.
Proof.
  intros Hx Hc Hpre. unfold UTF8ToWideStr in *.
  rewrite (decode_loop_app b pre (x :: rest) _ _ _ _ Hpre) by lia.
  cbn [decode_loop length].
  replace (length pre <? length (pre ++ x :: rest))%nat with true
    by (symmetry; apply Nat.ltb_lt; rewrite length_app; cbn [length]; lia).
  rewrite (decode_run_undefined_lead b _ _ w x); auto.
  rewrite nth_error_app2, Nat.sub_diag by lia. reflexivity.
Qed.

Lemma undefined_lead_byte_is_rejected_witness :
  byte_range 0x80 /\ defined_lead_class 0x80 = false /\
  UTF8ToWideStr windows [] = Ok [] /\
  UTF8ToWideStr windows ([] ++ 0x80 :: [0x41]) = Throw InvalidLeadByte.
Proof.
  assert (H1 : byte_range 0x80) by (unfold byte_range; lia).
  assert (H2 : defined_lead_class 0x80 = false) by reflexivity.
  assert (H3 : UTF8ToWideStr windows [] = Ok []) by reflexivity.
  exact (conj H1 (conj H2 (conj H3
           (undefined_lead_byte_is_rejected windows [] [0x41] [] 0x80 H1 H2 H3)))).
Defined.

(** Claim C8.  In the 16-bit build, [WideStrToUTF8] maps the units
    [D801 DC37] (U+10437) to the bytes F0 90 90 B7, and [UTF8ToWideStr]
    maps F0 90 90 B7 to the units [D801 DC37]. *)
Theorem U10437_both_directions :
  WideStrToUTF8 windows [0xD801; 0xDC37] = Ok [0xF0; 0x90; 0x90; 0xB7] /\
  UTF8ToWideStr windows [0xF0; 0x90; 0x90; 0xB7] = Ok [0xD801; 0xDC37].
Proof. split; vm_compute; reflexivity. Qed.

(** Claim C9.  On a sequence whose values all lie in 00-7F, in particular
    on a one-element sequence, [WideStrToUTF8] and [UTF8ToWideStr] both
    return the sequence itself. *)
Theorem ascii_is_identity (b : Build) (l : list Z) :
  Forall (fun v => 0 <= v <= 0x7F) l ->
  WideStrToUTF8 b l = Ok l /\ UTF8ToWideStr b l = Ok l.
Proof.
  intros Hl. split.
  - unfold WideStrToUTF8. rewrite (encode_loop_ascii _ l Hl). reflexivity.
  - unfold UTF8ToWideStr. rewrite (decode_loop_ascii b l Hl) by lia. reflexivity.
Qed.

Lemma ascii_is_identity_witness :
  Forall (fun v => 0 <= v <= 0x7F) [0x41; 0x00; 0x7F] /\
  WideStrToUTF8 windows [0x41; 0x00; 0x7F] = Ok [0x41; 0x00; 0x7F] /\
  UTF8ToWideStr windows [0x41; 0x00; 0x7F] = Ok [0x41; 0x00; 0x7F].
Proof.
  assert (H : Forall (fun v => 0 <= v <= 0x7F) [0x41; 0x00; 0x7F])
    by (repeat constructor; lia).
  exact (conj H (ascii_is_identity windows [0x41; 0x00; 0x7F] H)).
Defined.

(** Claim C10.  On the empty sequence both functions return the empty
    sequence and throw nothing. *)
Theorem empty_input_gives_empty_output (b : Build) :
  WideStrToUTF8 b [] = Ok [] /\ UTF8ToWideStr b [] = Ok [].
Proof. split; reflexivity. Qed.

(** * Further properties of [WideStrToUTF8] *)

(** On the wide form of a sequence of scalar values outside
    U+1D800-U+1DFFF the encoder returns the bytes of the table in its
    comment, code point by code point: one to three bytes for a unit of
    the basic plane, four bytes for a surrogate pair. *)
Theorem WideStrToUTF8_follows_table (b : Build) (cps : list Z) :
  Forall (fun cp => encodable cp = true) cps ->
  WideStrToUTF8 b (flat_map wideEncodingOf cps) = Ok (flat_map utf8_of cps).
Proof.
  intros H. unfold WideStrToUTF8, WideCharIsUTF16.
  destruct (encode_loop_scalars cps H 0 []) as [c ->]. reflexivity.
Qed.

Lemma WideStrToUTF8_follows_table_witness :
  Forall (fun cp => encodable cp = true) [0x41; 0x3A6; 0x20AC; 0x10437] /\
  WideStrToUTF8 windows (flat_map wideEncodingOf [0x41; 0x3A6; 0x20AC; 0x10437]) =
  Ok (flat_map utf8_of [0x41; 0x3A6; 0x20AC; 0x10437]).
Proof.
  assert (H : Forall (fun cp => encodable cp = true) [0x41; 0x3A6; 0x20AC; 0x10437])
    by (repeat constructor).
  exact (conj H (WideStrToUTF8_follows_table windows _ H)).
Defined.

(** A surrogate pair whose high surrogate is D836 or D837, the wide form
    of a code point in U+1D800-U+1DFFF, makes the encoder throw the
    unexpected-low-surrogate exception wherever it occurs after units
    that were encoded. *)
Theorem WideStrToUTF8_rejects_U1D800_block
  (b : Build) (pre rest o : list Z) (cp : Z) :
  WideStrToUTF8 b pre = Ok o -> in_U1D800_block cp = true ->
  WideStrToUTF8 b (pre ++ wideEncodingOf cp ++ rest) = Throw UnpairedLowSurrogate.
Proof.
  intros Hpre Hcp. apply WideStrToUTF8_Ok_inv in Hpre. destruct Hpre as [c Hpre].
  unfold in_U1D800_block in Hcp.
  destruct (wideEncodingOf_supplementary cp) as (h & l & -> & Hh & Hl & _ & Hblk); [lia|].
  assert (Hhv : h = 0xD836 \/ h = 0xD837) by (apply Hblk; lia).
  apply is_low_surrogate_range in Hl.
  unfold WideStrToUTF8, WideCharIsUTF16.
  rewrite encode_loop_app, Hpre. cbn [bind fst snd app encode_loop].
  rewrite (encode_unit_high _ _ _ Hh). cbn [bind fst snd].
  unfold encode_unit. destruct Hhv; subst h; decide_tests; reflexivity.
Qed.

Lemma WideStrToUTF8_rejects_U1D800_block_witness :
  WideStrToUTF8 windows [0x41] = Ok [0x41] /\ in_U1D800_block 0x1D800 = true /\
  WideStrToUTF8 windows ([0x41] ++ wideEncodingOf 0x1D800 ++ [0x42]) =
  Throw UnpairedLowSurrogate.
Proof.
  assert (H1 : WideStrToUTF8 windows [0x41] = Ok [0x41]) by reflexivity.
  assert (H2 : in_U1D800_block 0x1D800 = true) by reflexivity.
  exact (conj H1 (conj H2
           (WideStrToUTF8_rejects_U1D800_block windows [0x41] [0x42] [0x41] 0x1D800 H1 H2))).
Defined.

(** The encoder throws only in its low-surrogate branch: a sequence
    without a unit in DC00-DFFF is always encoded. *)
Theorem WideStrToUTF8_succeeds_without_low_surrogates (b : Build) (l : list Z) :
  Forall (fun u => is_low_surrogate u = false) l ->
  is_ok (WideStrToUTF8 b l) = true.
Proof.
  intros H. destruct (encode_loop_no_low (WideCharIsUTF16 b) l H) as [bytes Hb].
  destruct (Hb 0 []) as [c Hc]. unfold WideStrToUTF8. rewrite Hc. reflexivity.
Qed.

Lemma WideStrToUTF8_succeeds_without_low_surrogates_witness :
  Forall (fun u => is_low_surrogate u = false) [0xD800; 0x41; 0xDBFF] /\
  is_ok (WideStrToUTF8 windows [0xD800; 0x41; 0xDBFF]) = true.
Proof.
  assert (H : Forall (fun u => is_low_surrogate u = false) [0xD800; 0x41; 0xDBFF])
    by (repeat constructor).
  exact (conj H (WideStrToUTF8_succeeds_without_low_surrogates windows _ H)).
Defined.

(** A high surrogate that no low surrogate follows adds nothing to the
    output: with no low surrogate after it, the result is that of the
    sequence without it. *)
Theorem unpaired_high_surrogate_emits_nothing (b : Build) (l1 l2 : list Z) (h : Z) :
  is_high_surrogate h = true ->
  Forall (fun u => is_low_surrogate u = false) l2 ->
  WideStrToUTF8 b (l1 ++ h :: l2) = WideStrToUTF8 b (l1 ++ l2).
Proof.
  intros Hh H2. unfold WideStrToUTF8, WideCharIsUTF16.
  rewrite !encode_loop_app.
  destruct (encode_loop true l1 0 []) as [[c o]| | |]; cbn [bind fst snd]; try reflexivity.
  cbn [encode_loop]. rewrite (encode_unit_high _ _ _ Hh). cbn [bind fst snd].
  destruct (encode_loop_no_low true l2 H2) as [bytes Hb].
  destruct (Hb ((h - 0xD800) * 0x400) o) as [c1 ->].
  destruct (Hb c o) as [c2 ->]. reflexivity.
Qed.

Lemma unpaired_high_surrogate_emits_nothing_witness :
  is_high_surrogate 0xD83D = true /\
  Forall (fun u => is_low_surrogate u = false) [0x42] /\
  WideStrToUTF8 windows ([0x41] ++ 0xD83D :: [0x42]) = WideStrToUTF8 windows ([0x41] ++ [0x42]).
Proof.
  assert (H1 : is_high_surrogate 0xD83D = true) by reflexivity.
  assert (H2 : Forall (fun u => is_low_surrogate u = false) [0x42])
    by (repeat constructor).
  exact (conj H1 (conj H2
           (unpaired_high_surrogate_emits_nothing windows [0x41] [0x42] 0xD83D H1 H2))).
Defined.

(** When every low surrogate directly follows a high surrogate, the
    out-of-range exception is never thrown: the sum of the two halves and
    0x10000 is at most 0x10FFFF. *)
Theorem paired_low_surrogate_never_out_of_range (b : Build) (l : list Z) :
  lows_paired false l = true ->
  WideStrToUTF8 b l <> Throw SurrogateOutOfRange.
Proof.
  intros Hp. unfold WideStrToUTF8, WideCharIsUTF16.
  pose proof (encode_loop_paired_in_range l false 0 [] Hp ltac:(discriminate)) as H.
  destruct (encode_loop true l 0 []) as [st|e| |]; cbn [bind]; try discriminate.
  intros [= ->]. apply H. reflexivity.
Qed.

Lemma paired_low_surrogate_never_out_of_range_witness :
  lows_paired false [0xDBFF; 0xDFFF; 0x41] = true /\
  WideStrToUTF8 windows [0xDBFF; 0xDFFF; 0x41] <> Throw SurrogateOutOfRange.
Proof.
  assert (H : lows_paired false [0xDBFF; 0xDFFF; 0x41] = true) by reflexivity.
  exact (conj H (paired_low_surrogate_never_out_of_range windows _ H)).
Defined.

(** A sequence in which every low surrogate directly follows a high
    surrogate, and in which D836 and D837 do not occur, is encoded
    without an exception. *)
Theorem paired_sequences_are_encoded (b : Build) (l : list Z) :
  lows_paired false l = true ->
  Forall (fun u => u <> 0xD836 /\ u <> 0xD837) l ->
  is_ok (WideStrToUTF8 b l) = true.
Proof.
  intros Hp Hl. unfold WideStrToUTF8, WideCharIsUTF16.
  pose proof (encode_loop_paired_ok l Hl false 0 [] Hp ltac:(discriminate)) as H.
  destruct (encode_loop true l 0 []); [reflexivity | discriminate ..].
Qed.

Lemma paired_sequences_are_encoded_witness :
  lows_paired false [0xD83D; 0xDE00; 0xD800] = true /\
  Forall (fun u => u <> 0xD836 /\ u <> 0xD837) [0xD83D; 0xDE00; 0xD800] /\
  is_ok (WideStrToUTF8 windows [0xD83D; 0xDE00; 0xD800]) = true.
Proof.
  assert (H1 : lows_paired false [0xD83D; 0xDE00; 0xD800] = true) by reflexivity.
  assert (H2 : Forall (fun u => u <> 0xD836 /\ u <> 0xD837) [0xD83D; 0xDE00; 0xD800])
    by (repeat constructor; lia).
  exact (conj H1 (conj H2 (paired_sequences_are_encoded windows _ H1 H2))).
Defined.

(** The output never exceeds the capacity reserved at the start, four
    bytes per input unit. *)
Theorem WideStrToUTF8_output_within_reserve (b : Build) (l out : list Z) :
  WideStrToUTF8 b l = Ok out -> (length out <= 4 * length l)%nat.
Proof.
  unfold WideStrToUTF8. intros H.
  destruct (encode_loop (WideCharIsUTF16 b) l 0 []) as [st| | |] eqn:E;
    cbn [bind] in H; try discriminate.
  injection H as <-. apply encode_loop_length in E. cbn [length] in E. lia.
Qed.

Lemma WideStrToUTF8_output_within_reserve_witness :
  WideStrToUTF8 windows [0xD801; 0xDC37] = Ok [0xF0; 0x90; 0x90; 0xB7] /\
  (length [0xF0; 0x90; 0x90; 0xB7]%Z <= 4 * length [0xD801; 0xDC37]%Z)%nat.
Proof.
  assert (H : WideStrToUTF8 windows [0xD801; 0xDC37] = Ok [0xF0; 0x90; 0x90; 0xB7])
    by reflexivity.
  exact (conj H (WideStrToUTF8_output_within_reserve windows _ _ H)).
Defined.

(** A low surrogate at the start of the input, where the carry is still
    0, is not rejected: it is encoded as the code point
    0x10000 + (unit - 0xDC00). *)
Theorem leading_low_surrogate_is_encoded (b : Build) (l : Z) :
  is_low_surrogate l = true ->
  WideStrToUTF8 b [l] = Ok (utf8_of (0x10000 + (l - 0xDC00))).
Proof.
  intros Hl. pose proof (is_low_surrogate_range _ Hl) as Hr.
  unfold WideStrToUTF8, WideCharIsUTF16. cbn [encode_loop].
  rewrite encode_unit_low; [| exact Hl | lia | reflexivity | lia].
  cbn [bind fst snd app]. do 2 f_equal. lia.
Qed.

Lemma leading_low_surrogate_is_encoded_witness :
  is_low_surrogate 0xDE00 = true /\
  WideStrToUTF8 windows [0xDE00] = Ok (utf8_of (0x10000 + (0xDE00 - 0xDC00))).
Proof.
  assert (H : is_low_surrogate 0xDE00 = true) by reflexivity.
  exact (conj H (leading_low_surrogate_is_encoded windows 0xDE00 H)).
Defined.

(** A low surrogate that follows a completed pair is added to the code
    point of that pair, which is still in the carry: the sum plus 0x10000
    is encoded when it is at most 0x10FFFF, and otherwise the
    out-of-range exception is thrown. *)
Theorem low_surrogate_after_pair_uses_stale_carry (b : Build) (h l l2 : Z) :
  is_high_surrogate h = true -> is_low_surrogate l = true ->
  h <> 0xD836 -> h <> 0xD837 ->
  is_low_surrogate l2 = true ->
  let cp := 0x10000 + (h - 0xD800) * 0x400 + (l - 0xDC00) in
  let cp2 := cp + (l2 - 0xDC00) + 0x10000 in
  WideStrToUTF8 b [h; l; l2] =
  if cp2 <=? 0x10FFFF then Ok (utf8_of cp ++ utf8_of cp2)
  else Throw SurrogateOutOfRange.
Proof.
  intros Hh Hl H36 H37 Hl2 cp cp2.
  pose proof (encode_surrogate_pair 0 [] h l Hh Hl H36 H37) as Hpair.
  cbv zeta in Hpair. fold cp in Hpair.
  unfold WideStrToUTF8, WideCharIsUTF16.
  change [h; l; l2] with ([h; l] ++ [l2]).
  rewrite encode_loop_app, Hpair. cbn [bind fst snd encode_loop app].
  apply is_high_surrogate_range in Hh. apply is_low_surrogate_range in Hl.
  pose proof (is_low_surrogate_range _ Hl2) as Hr2.
  assert (Hcp : 0x10000 <= cp <= 0x10FFFF) by (unfold cp; lia).
  destruct (Z.leb_spec cp2 0x10FFFF) as [Hin|Hout].
  - rewrite encode_unit_low;
      [reflexivity | exact Hl2 | lia | unfold is_surrogate; lia | fold cp2; lia].
  - unfold encode_unit. decide_tests. unfold uint32.
    rewrite (Z.mod_small (cp + (l2 - 0xDC00))) by lia.
    rewrite (Z.mod_small (cp + (l2 - 0xDC00) + 0x10000)) by (fold cp2; unfold cp2; lia).
    fold cp2. decide_tests. reflexivity.
Qed.

Lemma low_surrogate_after_pair_uses_stale_carry_witness :
  is_high_surrogate 0xDBFF = true /\ is_low_surrogate 0xDFFF = true /\
  0xDBFF <> 0xD836 /\ 0xDBFF <> 0xD837 /\ is_low_surrogate 0xDC00 = true /\
  WideStrToUTF8 windows [0xDBFF; 0xDFFF; 0xDC00] =
  (let cp := 0x10000 + (0xDBFF - 0xD800) * 0x400 + (0xDFFF - 0xDC00) in
   let cp2 := cp + (0xDC00 - 0xDC00) + 0x10000 in
   if cp2 <=? 0x10FFFF then Ok (utf8_of cp ++ utf8_of cp2)
   else Throw SurrogateOutOfRange).
Proof.
  assert (H1 : is_high_surrogate 0xDBFF = true) by reflexivity.
  assert (H2 : is_low_surrogate 0xDFFF = true) by reflexivity.
  assert (H3 : 0xDBFF <> 0xD836) by lia.
  assert (H4 : 0xDBFF <> 0xD837) by lia.
  assert (H5 : is_low_surrogate 0xDC00 = true) by reflexivity.
  exact (conj H1 (conj H2 (conj H3 (conj H4 (conj H5
    (low_surrogate_after_pair_uses_stale_carry windows 0xDBFF 0xDFFF 0xDC00
       H1 H2 H3 H4 H5)))))).
Defined.

(** The branch for 32-bit units is never compiled, so a unit above FFFF,
    which a 32-bit [wchar_t] can hold, falls into the three-byte branch:
    three bytes are emitted for it, not four. *)
Theorem unit_above_FFFF_gets_three_bytes (b : Build) (u : Z) :
  0xFFFF < u ->
  exists out, WideStrToUTF8 b [u] = Ok out /\ length out = 3%nat.
Proof.
  intros Hu. unfold WideStrToUTF8, WideCharIsUTF16. cbn [encode_loop].
  unfold encode_unit. decide_tests.
  cbn [bind fst snd app]. eexists. split; reflexivity.
Qed.

Lemma unit_above_FFFF_gets_three_bytes_witness :
  0xFFFF < 0x10437 /\
  exists out, WideStrToUTF8 posix [0x10437] = Ok out /\ length out = 3%nat.
Proof.
  assert (H : 0xFFFF < 0x10437) by lia.
  exact (conj H (unit_above_FFFF_gets_three_bytes posix 0x10437 H)).
Defined.

(** * Further properties of [UTF8ToWideStr] *)

(** When a sequence [p] decodes completely, decoding [p ++ s] gives the
    units of [p] followed by those of [s]; an exception of [s] is the
    exception of the whole, and a read past the end of [s] happens at the
    same byte, [length p] positions further on. *)
Theorem UTF8ToWideStr_concatenation (b : Build) (p s u : list Z) :
  UTF8ToWideStr b p = Ok u ->
  UTF8ToWideStr b (p ++ s) =
  shift_pos (length p) (v <- UTF8ToWideStr b s ;; Ok (u ++ v)).
Proof. apply decode_app. Qed.

Lemma UTF8ToWideStr_concatenation_witness :
  UTF8ToWideStr windows [0xCE; 0xA6] = Ok [0x3A6] /\
  UTF8ToWideStr windows ([0xCE; 0xA6] ++ [0x41; 0xE2]) =
  shift_pos (length [0xCE; 0xA6]%Z)
    (v <- UTF8ToWideStr windows [0x41; 0xE2] ;; Ok ([0x3A6] ++ v)).
Proof.
  assert (H : UTF8ToWideStr windows [0xCE; 0xA6] = Ok [0x3A6]) by reflexivity.
  exact (conj H (UTF8ToWideStr_concatenation windows _ [0x41; 0xE2] _ H)).
Defined.

(** After completely decoded bytes, a lead byte followed by fewer bytes
    than its class announces makes the decoder index the first position
    past the end of the input. *)
Theorem truncated_run_reads_first_position_past_the_end
  (b : Build) (pre t w : list Z) (x : Z) :
  UTF8ToWideStr b pre = Ok w ->
  byte_range x -> defined_lead_class x = true ->
  (S (length t) < run_length x)%nat ->
  UTF8ToWideStr b (pre ++ x :: t) = OutOfBounds (length (pre ++ x :: t)).
Proof.
  intros Hpre Hx Hc Ht.
  rewrite (decode_app b _ _ _ Hpre), (decode_truncated_run b x t Hx Hc Ht).
  cbn [bind shift_pos]. rewrite length_app. reflexivity.
Qed.

Lemma truncated_run_reads_first_position_past_the_end_witness :
  UTF8ToWideStr posix [0x41] = Ok [0x41] /\
  byte_range 0xE2 /\ defined_lead_class 0xE2 = true /\
  (S (length [0x82]%Z) < run_length 0xE2)%nat /\
  UTF8ToWideStr posix ([0x41] ++ 0xE2 :: [0x82]) =
  OutOfBounds (length ([0x41] ++ 0xE2 :: [0x82])%Z).
Proof.
  assert (H1 : UTF8ToWideStr posix [0x41] = Ok [0x41]) by reflexivity.
  assert (H2 : byte_range 0xE2) by (unfold byte_range; lia).
  assert (H3 : defined_lead_class 0xE2 = true) by reflexivity.
  assert (H4 : (S (length [0x82]%Z) < run_length 0xE2)%nat) by (vm_compute; lia).
  exact (conj H1 (conj H2 (conj H3 (conj H4
    (truncated_run_reads_first_position_past_the_end posix [0x41] [0x82] [0x41] 0xE2
       H1 H2 H3 H4))))).
Defined.



(** The decoder inverts the table for every code point below U+40000:
    the UTF-8 forms of such code points, one after the other, decode to
    their wide forms under [_WIN32] and to the code points themselves
    otherwise. *)
Theorem UTF8ToWideStr_inverts_table_below_U40000 (b : Build) (cps : list Z) :
  Forall (fun cp => 0 <= cp < 0x40000) cps ->
  UTF8ToWideStr b (flat_map utf8_of cps) = Ok (flat_map (decoded_units b) cps).
Proof. apply decode_scalars. Qed.

Lemma UTF8ToWideStr_inverts_table_below_U40000_witness :
  Forall (fun cp => 0 <= cp < 0x40000) [0x41; 0x3A6; 0x20AC; 0x10437] /\
  UTF8ToWideStr windows (flat_map utf8_of [0x41; 0x3A6; 0x20AC; 0x10437]) =
  Ok (flat_map (decoded_units windows) [0x41; 0x3A6; 0x20AC; 0x10437]).
Proof.
  assert (H : Forall (fun cp => 0 <= cp < 0x40000) [0x41; 0x3A6; 0x20AC; 0x10437])
    by (repeat constructor; lia).
  exact (conj H (UTF8ToWideStr_inverts_table_below_U40000 windows _ H)).
Defined.

(** For a code point from U+40000 on, the decoder moves the payload of
    the lead byte six bits too far: without [_WIN32] it returns
    [assembled_4 cp], with [_WIN32] a correct low surrogate after a wrong
    first unit; in neither build the result is the code point's. *)
Theorem UTF8ToWideStr_misplaces_lead_payload (b : Build) (cp : Z) :
  0x40000 <= cp <= 0x10FFFF ->
  UTF8ToWideStr b (utf8_of cp) =
    Ok (if has_WIN32 b
        then [((assembled_4 cp - 0x10000) / 0x400 + 0xD800) mod 0x10000;
              cp mod 0x400 + 0xDC00]
        else [assembled_4 cp]) /\
  UTF8ToWideStr b (utf8_of cp) <> Ok (decoded_units b cp).
Proof.
  intros Hcp. rewrite decode_utf8_of_4 by lia. split; [reflexivity|].
  unfold decoded_units, wideEncodingOf, spec_surrogate_pair.
  replace (cp <? 0x10000) with false by (symmetry; apply Z.ltb_ge; lia).
  rewrite Z.shiftr_div_pow2 by lia. change (2 ^ 10) with 0x400.
  destruct (has_WIN32 b); intros [= H]; revert H; unfold assembled_4; div_lia.
Qed.

Lemma UTF8ToWideStr_misplaces_lead_payload_witness :
  0x40000 <= 0x10FFFF <= 0x10FFFF /\
  UTF8ToWideStr posix (utf8_of 0x10FFFF) =
    Ok (if has_WIN32 posix
        then [((assembled_4 0x10FFFF - 0x10000) / 0x400 + 0xD800) mod 0x10000;
              0x10FFFF mod 0x400 + 0xDC00]
        else [assembled_4 0x10FFFF]) /\
  UTF8ToWideStr posix (utf8_of 0x10FFFF) <> Ok (decoded_units posix 0x10FFFF).
Proof.
  assert (H : 0x40000 <= 0x10FFFF <= 0x10FFFF) by lia.
  exact (conj H (UTF8ToWideStr_misplaces_lead_payload posix 0x10FFFF H)).
Defined.





(** * Round trips *)

Lemma flat_map_wideEncodingOf_bmp (l : list Z) :
  Forall (fun u => 0 <= u <= 0xFFFF /\ is_surrogate u = false) l ->
  flat_map wideEncodingOf l = l.
Proof.
  induction 1 as [|u l [Hu _] _ IH]; cbn [flat_map]; [reflexivity|].
  unfold wideEncodingOf at 1.
  replace (u <? 0x10000) with true by (symmetry; apply Z.ltb_lt; lia).
  cbn [app]. rewrite IH. reflexivity.
Qed.

Lemma flat_map_decoded_units_bmp (b : Build) (l : list Z) :
  Forall (fun u => 0 <= u <= 0xFFFF /\ is_surrogate u = false) l ->
  flat_map (decoded_units b) l = l.
Proof.
  induction 1 as [|u l [Hu _] _ IH]; cbn [flat_map]; [reflexivity|].
  unfold decoded_units at 1, wideEncodingOf.
  replace (u <? 0x10000) with true by (symmetry; apply Z.ltb_lt; lia).
  rewrite IH. destruct (has_WIN32 b); reflexivity.
Qed.

(** Under [_WIN32], a sequence of scalar values below U+40000 and outside
    U+1D800-U+1DFFF survives the trip from its wide form to UTF-8 and
    back. *)
Theorem wide_string_round_trip_below_U40000 (b : Build) (cps : list Z) :
  has_WIN32 b = true ->
  Forall (fun cp => encodable cp = true /\ cp < 0x40000) cps ->
  (bytes <- WideStrToUTF8 b (flat_map wideEncodingOf cps) ;; UTF8ToWideStr b bytes) =
  Ok (flat_map wideEncodingOf cps).
Proof.
  intros Hb H.
  assert (He : Forall (fun cp => encodable cp = true) cps)
    by (eapply Forall_impl; [|exact H]; intros cp [Hcp _]; exact Hcp).
  assert (Hr : Forall (fun cp => 0 <= cp < 0x40000) cps).
  { eapply Forall_impl; [|exact H]. intros cp [Hcp Hlt].
    unfold encodable, is_scalar in Hcp. lia. }
  unfold WideStrToUTF8, WideCharIsUTF16.
  destruct (encode_loop_scalars cps He 0 []) as [c ->]. cbn [bind snd app].
  rewrite (decode_scalars b cps Hr). f_equal.
  apply flat_map_ext. intros cp. unfold decoded_units. rewrite Hb. reflexivity.
Qed.

Lemma wide_string_round_trip_below_U40000_witness :
  has_WIN32 windows = true /\
  Forall (fun cp => encodable cp = true /\ cp < 0x40000) [0x41; 0x20AC; 0x1F600] /\
  (bytes <- WideStrToUTF8 windows (flat_map wideEncodingOf [0x41; 0x20AC; 0x1F600]) ;;
   UTF8ToWideStr windows bytes) =
  Ok (flat_map wideEncodingOf [0x41; 0x20AC; 0x1F600]).
Proof.
  assert (H1 : has_WIN32 windows = true) by reflexivity.
  assert (H2 : Forall (fun cp => encodable cp = true /\ cp < 0x40000)
                 [0x41; 0x20AC; 0x1F600])
    by (repeat constructor; lia).
  exact (conj H1 (conj H2 (wide_string_round_trip_below_U40000 windows _ H1 H2))).
Defined.

(** In every build, a sequence of units of the basic plane without
    surrogates survives the trip to UTF-8 and back. *)
Theorem basic_plane_round_trip (b : Build) (l : list Z) :
  Forall (fun u => 0 <= u <= 0xFFFF /\ is_surrogate u = false) l ->
  (bytes <- WideStrToUTF8 b l ;; UTF8ToWideStr b bytes) = Ok l.
Proof.
  intros H.
  assert (He : Forall (fun cp => encodable cp = true) l).
  { eapply Forall_impl; [|exact H]. intros u [Hu Hs].
    unfold encodable, is_scalar, in_U1D800_block. rewrite Hs. lia. }
  assert (Hr : Forall (fun cp => 0 <= cp < 0x40000) l)
    by (eapply Forall_impl; [|exact H]; intros u [Hu _]; lia).
  rewrite <- (flat_map_wideEncodingOf_bmp l H) at 1.
  unfold WideStrToUTF8, WideCharIsUTF16.
  destruct (encode_loop_scalars l He 0 []) as [c ->]. cbn [bind snd app].
  rewrite (decode_scalars b l Hr), (flat_map_decoded_units_bmp b l H).
  reflexivity.
Qed.

Lemma basic_plane_round_trip_witness :
  Forall (fun u => 0 <= u <= 0xFFFF /\ is_surrogate u = false) [0x41; 0x3A6; 0xFFFF] /\
  (bytes <- WideStrToUTF8 posix [0x41; 0x3A6; 0xFFFF] ;; UTF8ToWideStr posix bytes) =
  Ok [0x41; 0x3A6; 0xFFFF].
Proof.
  assert (H : Forall (fun u => 0 <= u <= 0xFFFF /\ is_surrogate u = false)
                [0x41; 0x3A6; 0xFFFF])
    by (repeat constructor; lia).
  exact (conj H (basic_plane_round_trip posix _ H)).
Defined.

(** Under [_WIN32], a 4-byte run with lead byte F0 whose payload is at
    least 0x10000 is decoded to the surrogate pair of the 21-bit code
    point its bytes carry, whatever the three bytes after the lead are. *)
Theorem four_byte_run_with_lead_F0 (y1 y2 y3 : Z) :
  0x10000 <= spec_cp4 0xF0 y1 y2 y3 ->
  UTF8ToWideStr windows [0xF0; y1; y2; y3] =
  Ok (spec_surrogate_pair (spec_cp4 0xF0 y1 y2 y3)).
Proof.
  unfold spec_cp4. change (Z.shiftl (Z.land 0xF0 0x07) 18) with (Z.shiftl 0 24).
  rewrite !land_3F.
  pose proof (Z.mod_pos_bound y1 0x40 ltac:(lia)) as H1.
  pose proof (Z.mod_pos_bound y2 0x40 ltac:(lia)) as H2.
  pose proof (Z.mod_pos_bound y3 0x40 ltac:(lia)) as H3.
  rewrite payload_4 by lia.
  set (cp := 0 * 0x1000000 + y1 mod 0x40 * 0x1000 + y2 mod 0x40 * 0x40 + y3 mod 0x40).
  assert (Hcp : 0 <= cp < 0x40000) by (unfold cp; lia).
  intros Hlow. unfold UTF8ToWideStr. cbn [length].
  erewrite decode_loop_step;
    [
    | cbn [length]; lia
    | unfold decode_run; read_bytes;
      change (Z.land 0xF0 0x80 =? 0) with false;
      change (Z.land 0xF0 0xE0 =? 0xC0) with false;
      change (Z.land 0xF0 0xF0 =? 0xE0) with false;
      change (Z.land 0xF0 0xF8 =? 0xF0) with true;
      change (Z.land 0xF0 0x07) with 0;
      cbv iota; read_bytes; cbn [has_WIN32 windows]; cbv iota;
      rewrite !land_3F, payload_4 by lia; fold cp; reflexivity ].
  cbn [fst snd]. rewrite decode_loop_done by (cbn [length]; lia).
  unfold spec_surrogate_pair, uint32, wchar_cast. cbn [has_WIN32 windows app].
  rewrite (Z.mod_small cp 0x100000000) by lia.
  rewrite (Z.mod_small (cp - 0x10000)) by lia.
  rewrite Z.shiftr_div_pow2 by lia. change (2 ^ 10) with 0x400.
  assert (0 <= (cp - 0x10000) / 0x400 < 0x100)
    by (split; [apply Z.div_pos | apply Z.div_lt_upper_bound]; lia).
  pose proof (Z.mod_pos_bound cp 0x400 ltac:(lia)).
  rewrite (Z.mod_small (_ / 0x400 + 0xD800) 0x100000000) by lia.
  rewrite (Z.mod_small (_ mod 0x400 + 0xDC00) 0x100000000) by lia.
  rewrite (Z.mod_small (_ mod 0x400 + 0xDC00) 0x10000) by lia.
  rewrite (Z.mod_small (_ / 0x400 + 0xD800) 0x10000) by lia.
  replace ((cp - 0x10000) mod 0x400) with (cp mod 0x400) by div_lia.
  reflexivity.
Qed.

Lemma four_byte_run_with_lead_F0_witness :
  0x10000 <= spec_cp4 0xF0 0x9F 0x98 0x80 /\
  UTF8ToWideStr windows [0xF0; 0x9F; 0x98; 0x80] =
  Ok (spec_surrogate_pair (spec_cp4 0xF0 0x9F 0x98 0x80)).
Proof.
  assert (H : 0x10000 <= spec_cp4 0xF0 0x9F 0x98 0x80) by (vm_compute; discriminate).
  exact (conj H (four_byte_run_with_lead_F0 0x9F 0x98 0x80 H)).
Defined.
